(** * Session routing and streaming tools of the two MCP servers

    A shallow embedding of [src/mcpServer.ts] (the request/response
    binding, endpoint [/mcp]) and [src/sseServer.ts] (the push-stream
    binding, endpoints [/sse] and [/messages]), followed by the properties
    the specification states about them.

    Conventions of the embedding:
    - a route handler is a function from the process state and the request
      to the new state and what the handler did with the response;
    - the SDK classes ([StreamableHTTPServerTransport], [SSEServerTransport],
      [McpServer]) are external: a transport or server object is a handle,
      a call into the SDK is recorded as an effect, and the moments at which
      the SDK calls back into this code are steps of a transition relation;
    - an [async] tool handler is a function on a world holding everything
      it did (notifications handed to [extra.sendNotification], log lines,
      timers), with a fuel argument for its [for] loop;
    - [logger] writes a line to the console and has no other effect; the
      lines are kept symbolically (which call site, which arguments),
      without the [Date.now()] prefix;
    - the loop counter of [stream_numbers] is an integer: [i++] and [i * 2]
      are exact on doubles up to 2^53, which a loop pausing at every turn
      does not reach; the [count] it is compared with is any number;
    - properties of the [transports] and [servers] objects are read the way
      JavaScript reads them: own properties first, then those inherited
      from [Object.prototype]. *)

From Stdlib Require Import QArith Qround Ascii String.
From stdpp Require Import gmap strings list fin_maps pretty.

Open Scope Z_scope.

(** ** JavaScript values the two servers rely on *)

Module Js.

#[local] Set Warnings "-register-all".

(** Plain data: request bodies, notifications, tool results, the error
    envelope. [JUndefined] is the value of a property that was assigned
    [undefined]. *)
Inductive Data :=
| JUndefined
| JNull
| JNum (z : Z)
| JStr (s : string)
| JArr (items : list Data)
| JObj (fields : list (string * Data)).

(** A [number]: an IEEE double is a rational, an infinity or NaN. *)
Inductive number :=
| NaN
| Infinity
| NegInfinity
| Finite (q : Q).

Definition of_Z (z : Z) : number := Finite (inject_Z z).

(** [a <= b] on numbers: false as soon as one side is NaN. *)
Definition le (a b : number) : bool :=
  match a, b with
  | NaN, _ | _, NaN => false
  | NegInfinity, _ => true
  | _, Infinity => true
  | Infinity, _ => false
  | _, NegInfinity => false
  | Finite x, Finite y => Qle_bool x y
  end.

(** [a < b] on numbers. *)
Definition lt (a b : number) : bool :=
  match a, b with
  | NaN, _ | _, NaN => false
  | _, NegInfinity => false
  | NegInfinity, _ => true
  | Infinity, _ => false
  | _, Infinity => true
  | Finite x, Finite y => negb (Qle_bool y x)
  end.

(** Truthiness of a string: every string but the empty one. *)
Definition truthy_string (s : string) : bool :=
  match s with EmptyString => false | String _ _ => true end.

(** Truthiness of a value of type [string | undefined]. *)
Definition truthy (v : option string) : bool :=
  match v with Some s => truthy_string s | None => false end.

(** The properties every object created by [{}] inherits from
    [Object.prototype]. *)
Definition object_prototype_keys : list string :=
  [ "constructor"; "hasOwnProperty"; "isPrototypeOf";
    "propertyIsEnumerable"; "toLocaleString"; "toString"; "valueOf";
    "__proto__"; "__defineGetter__"; "__defineSetter__";
    "__lookupGetter__"; "__lookupSetter__" ]%string.

(** What a property read [obj[k]] evaluates to, for [obj] created by [{}]
    and holding values of type [A] as own properties: an own property, a
    member of [Object.prototype], or (as [None]) [undefined]. *)
Inductive Value (A : Type) :=
| Own (a : A)
| Inherited (name : string).
Arguments Own {A} a.
Arguments Inherited {A} name.

(** [obj[k]]: own properties first, then the prototype. *)
Definition get {A} (obj : gmap string A) (k : string) : option (Value A) :=
  match obj !! k with
  | Some a => Some (Own a)
  | None =>
      if bool_decide (k ∈ object_prototype_keys)
      then Some (Inherited k) else None
  end.

(** [k && obj[k]] for [k : string | undefined]. The result is falsy
    ([None]) when [k] is [undefined] or empty or when [obj[k]] is
    [undefined]; every other result is an object or a function, hence
    truthy. *)
Definition and_get {A} (k : option string) (obj : gmap string A)
  : option (Value A) :=
  match k with
  | Some s => if truthy_string s then get obj s else None
  | None => None
  end.

(** [obj[k] = v], for a key other than ["__proto__"] (the keys written by
    the servers come from [randomUUID]). *)
Definition set {A} (obj : gmap string A) (k : string) (v : A) : gmap string A :=
  <[k := v]> obj.

(** [delete obj[k]]: removes an own property, does nothing otherwise. *)
Definition delete_ {A} (obj : gmap string A) (k : string) : gmap string A :=
  delete k obj.

(** The format of the strings [crypto.randomUUID()] returns (RFC 4122
    version 4): 36 characters, hyphens at offsets 8, 13, 18 and 23 and
    lower-case hexadecimal digits elsewhere. *)
Definition is_hex (c : Ascii.ascii) : bool :=
  let n := Ascii.nat_of_ascii c in
  ((48 <=? n)%nat && (n <=? 57)%nat) || ((97 <=? n)%nat && (n <=? 102)%nat).

Fixpoint uuid_chars (pos : nat) (s : string) : bool :=
  match s with
  | EmptyString => (pos =? 36)%nat
  | String c rest =>
      (if (pos =? 8)%nat || (pos =? 13)%nat || (pos =? 18)%nat || (pos =? 23)%nat
       then Ascii.eqb c "-"%char else is_hex c)
      && uuid_chars (S pos) rest
  end.

Definition is_uuid (s : string) : bool := uuid_chars 0 s.

(** A non-negative finite double in mantissa and exponent form: the value
    [mant * 2 ^ expo], for a 53-bit mantissa and an exponent from the
    smallest subnormal's up. Used where the rounding of an arithmetic
    operation matters. *)
Record double := { mant : Z; expo : Z }.

Definition is_double (d : double) : bool :=
  (0 <=? mant d) && (mant d <? 2 ^ 53) && (-1074 <=? expo d) && (expo d <=? 971).

(** [0 <= d < 1], the range of [Math.random()]. *)
Definition in_unit_interval (d : double) : bool :=
  (mant d =? 0) || ((expo d <? 0) && (mant d <? 2 ^ (- expo d))).

(** Rounding of the exact value [p * 2 ^ e] ([0 <= p]) to the nearest
    double, ties to the even mantissa: the mantissa kept and the number of
    low bits dropped. Results stay below the overflow threshold here. *)
Definition round_nearest_even (p e : Z) : Z * Z :=
  let shift := Z.max 0 (Z.max (Z.log2 p - 52) (-1074 - e)) in
  if shift =? 0 then (p, 0)
  else
    let q := p / 2 ^ shift in
    let rem := p mod 2 ^ shift in
    let half := 2 ^ (shift - 1) in
    let up := (half <? rem) || ((rem =? half) && Z.odd q) in
    (if up then q + 1 else q, shift).

(** [a * b] on non-negative doubles. *)
Definition mul (a b : double) : double :=
  let e := expo a + expo b in
  let '(q, shift) := round_nearest_even (mant a * mant b) e in
  {| mant := q; expo := e + shift |}.

(** The double [3]. *)
Definition three : double := {| mant := 3; expo := 0 |}.

(** [Math.floor(d)] for a non-negative double, as an integer. *)
Definition floor (d : double) : Z :=
  if 0 <=? expo d then mant d * 2 ^ expo d else mant d / 2 ^ (- expo d).

(** [array[i]] for an integer index: [undefined] ([None]) out of range. *)
Definition index {A} (array : list A) (i : Z) : option A :=
  if i <? 0 then None else array !! Z.to_nat i.

End Js.

(** ** Console lines of [sseServer.ts]

    One constructor per [logger] call site, carrying the values the
    template literal interpolates. *)

Module Console.

Inductive Line :=
| ServerCreated (sessionId : string)
| StreamStart (sessionId : string) (count : Js.number)
| StreamSending (sessionId : string) (i : Z)
| StreamSendError (sessionId : string) (i : Z) (err : string)
| Streamed (sessionId : string) (i : Z)
| SecretWord (sessionId : string) (word : option string)
| Connected (sessionId : string)
| Disconnected (sessionId : string)
| InvalidLegacyPost (sessionId : option string)
| InvalidMessagesPost (sessionId : option string)
| IncomingLegacy (sessionId : option string)
| IncomingMessages (sessionId : option string).

End Console.

(** ** Asynchronous tool handlers *)

Module Async.
Import Js.

(** Everything a handler has done so far: the notifications it handed to
    [extra.sendNotification] (oldest first), the delays it waited for and
    the lines it logged. *)
Record World := {
  sent : list Data;
  timers : list Z;
  console : list Console.Line
}.

Definition start : World := {| sent := []; timers := []; console := [] |}.

(** How the promise returned by an [async] handler stands: fulfilled with
    a value, rejected with a reason, or still pending when the fuel given
    to its loop ran out. *)
Inductive Completion (A : Type) :=
| Fulfilled (a : A)
| Rejected (reason : string)
| Pending.
Arguments Fulfilled {A} a.
Arguments Rejected {A} reason.
Arguments Pending {A}.

Definition M (A : Type) : Type := World → World * Completion A.

Definition ret {A} (a : A) : M A := λ w, (w, Fulfilled a).

Definition bind {A B} (m : M A) (k : A → M B) : M B :=
  λ w, match m w with
       | (w', Fulfilled a) => k a w'
       | (w', Rejected e) => (w', Rejected e)
       | (w', Pending) => (w', Pending)
       end.

Definition throw {A} (reason : string) : M A := λ w, (w, Rejected reason).

Definition out_of_fuel {A} : M A := λ w, (w, Pending).

Declare Scope async_scope.
Delimit Scope async_scope with async.
Notation "'let!' x ':=' m 'in' k" := (bind m (λ x, k))
  (at level 10, x name, m at level 100, k at level 200) : async_scope.
Notation "m ';;;' k" := (bind m (λ _, k))
  (at level 100, k at level 200, right associativity) : async_scope.

(** [logger(line)]. *)
Definition logger (line : Console.Line) : M unit :=
  λ w, ({| sent := sent w; timers := timers w; console := console w ++ [line] |},
        Fulfilled tt).

(** [await new Promise((resolve) => setTimeout(resolve, ms))]. *)
Definition sleep (ms : Z) : M unit :=
  λ w, ({| sent := sent w; timers := timers w ++ [ms]; console := console w |},
        Fulfilled tt).

(** The [extra] argument of a tool handler, as far as the handlers use it:
    how the promise of the [k]-th call (from 0) of [sendNotification] on
    notification [n] settles; [None] is fulfilment, [Some reason] a
    rejection. *)
Record Extra := { settles : nat → Data → option string }.

(** [extra.sendNotification(n)], not awaited: the notification is handed
    to the transport and the promise comes back. *)
Definition sendNotification (extra : Extra) (n : Data) : M (option string) :=
  λ w, ({| sent := sent w ++ [n]; timers := timers w; console := console w |},
        Fulfilled (settles extra (length (sent w)) n)).

(** [await promise]: a rejection is rethrown into the handler. *)
Definition await (promise : option string) : M unit :=
  match promise with
  | None => ret tt
  | Some reason => throw reason
  end.

(** [promise.catch(handler)], not awaited: a rejection runs [handler] and
    goes no further. The handler runs once the rejection is delivered; its
    effect is placed at the call. *)
Definition catch (promise : option string) (handler : string → M unit) : M unit :=
  match promise with
  | None => ret tt
  | Some reason => handler reason
  end.

(** The result [{ content: [{ type: "text", text }] }] of a tool. *)
Definition text_result (text : Data) : Data :=
  JObj [("content", JArr [JObj [("type", JStr "text"); ("text", text)]])]%string.

(** The line feed a template literal writes as [\n]. *)
Definition newline : string := String (Ascii.ascii_of_nat 10) EmptyString.

(** [`${i}`] for an integer-valued number below 1e21. *)
Definition show (i : Z) : string := pretty i.

End Async.

(** ** [mcpServer.ts]: the request/response binding *)

Module Mcp.
Import Js Async.
#[local] Open Scope async_scope.

(** [getRandomWord], given the value [Math.random()] returned. *)
Definition vocabulary : list string := ["apple"; "banana"; "cherry"]%string.

Definition getRandomWord (random : double) : option string :=
  index vocabulary (floor (mul random three)).

(** The [get_secret_word] tool. *)
Definition get_secret_word (random : double) : Data :=
  text_result (match getRandomWord random with
               | Some word => JStr word
               | None => JUndefined
               end).

(** The notification of iteration [i] of [stream_numbers]. *)
Definition notification (i : Z) : Data :=
  JObj [("method", JStr "notifications/message");
        ("params", JObj [("level", JStr "info");
                         ("content", JArr [JObj [("type", JStr "text");
                                                 ("text", JStr (show i ++ newline))]])])]%string.

(** The [for] loop of [stream_numbers] from counter [i] on, and the
    [return] after it. Each notification is awaited, then a second's
    pause. *)
Fixpoint stream_numbers_from (fuel : nat) (count : number) (extra : Extra) (i : Z)
  : M Data :=
  match fuel with
  | O => out_of_fuel
  | S fuel' =>
      if le (of_Z i) count then
        let! promise := sendNotification extra (notification i) in
        await promise ;;;
        sleep 1000 ;;;
        stream_numbers_from fuel' count extra (i + 1)
      else
        ret (text_result (JStr "Done!"))
  end.

(** The [stream_numbers] tool. *)
Definition stream_numbers (fuel : nat) (count : number) (extra : Extra) : M Data :=
  stream_numbers_from fuel count extra 1.

(** A transport object is a handle into the heap of the transports created
    so far; of a [StreamableHTTPServerTransport] this file reads the
    [sessionId] property, [undefined] until the SDK has run the
    initialization. *)
Definition handle := nat.

Record Transport := { sessionId : option string }.

(** The process state: the [transports] object and the transport objects
    created. *)
Record State := {
  transports : gmap string handle;
  heap : list Transport
}.

Definition initial : State := {| transports := ∅; heap := [] |}.

(** What a route handler did, in order. *)
Inductive Action :=
| Connect (t : handle)
| HandleRequest (t : handle) (body : option Data)
| SendJson (status : Z) (body : Data)
| SendText (status : Z) (body : string)
| TypeError (callee : string).

(** [await transport.handleRequest(req, res, body)], for [transport] the
    value read from [transports]: a member of [Object.prototype] has no
    [handleRequest], and calling it throws. *)
Definition handleRequest (transport : Value handle) (body : option Data) : Action :=
  match transport with
  | Own t => HandleRequest t body
  | Inherited name => TypeError (name ++ ".handleRequest")
  end.

(** The body of the rejection sent by [app.post("/mcp")]. *)
Definition no_valid_session : Data :=
  JObj [("jsonrpc", JStr "2.0");
        ("error", JObj [("code", JNum (-32000));
                        ("message", JStr "Bad Request: No valid session ID provided")]);
        ("id", JNull)]%string.

(** The success class of HTTP status codes. *)
Definition is_success (status : Z) : bool :=
  (200 <=? status) && (status <=? 299).

Section Handlers.

(** [isInitializeRequest] of the SDK. *)
Variable isInitializeRequest : Data → bool.

(** [app.post("/mcp")], for the [mcp-session-id] header and the parsed
    body of the request. *)
Definition post_mcp (header : option string) (body : Data) (s : State)
  : State * list Action :=
  match and_get header (transports s) with
  | Some transport => (s, [handleRequest transport (Some body)])
  | None =>
      if negb (truthy header) && isInitializeRequest body then
        let t := length (heap s) in
        ({| transports := transports s;
            heap := heap s ++ [{| sessionId := None |}] |},
         [Connect t; HandleRequest t (Some body)])
      else
        (s, [SendJson 400 no_valid_session])
  end.

(** [handleSessionRequest], serving GET and DELETE on [/mcp]. Its guard
    [!sessionId || !transports[sessionId]] is the negation of
    [sessionId && transports[sessionId]]. *)
Definition handleSessionRequest (header : option string) (s : State)
  : State * list Action :=
  match and_get header (transports s) with
  | None => (s, [SendText 400 "Invalid or missing session ID"])
  | Some transport => (s, [handleRequest transport None])
  end.

(** The [onsessioninitialized] callback of transport [t]. *)
Definition onsessioninitialized (t : handle) (id : string) (s : State) : State :=
  {| transports := set (transports s) id t; heap := heap s |}.

(** The [onclose] callback of transport [t]. *)
Definition onclose (t : handle) (s : State) : State :=
  match heap s !! t with
  | Some transport =>
      match sessionId transport with
      | Some id =>
          if truthy_string id
          then {| transports := delete_ (transports s) id; heap := heap s |}
          else s
      | None => s
      end
  | None => s
  end.

(** What happens to the process: requests arrive, and the SDK completes
    the initialization of a transport or reports it closed. *)
Inductive Event :=
| Post (header : option string) (body : Data)
| GetOrDelete (header : option string)
| Initialized (t : handle) (id : string)
| Closed (t : handle).

(** One step. The SDK initializes a transport that exists, under an id
    from its [sessionIdGenerator], [randomUUID]: it assigns the id to the
    transport's [sessionId] and calls [onsessioninitialized]. It closes a
    transport that exists, calling [onclose]. Other events cannot occur
    ([None]). *)
Definition step (s : State) (e : Event) : option State :=
  match e with
  | Post header body => Some (fst (post_mcp header body s))
  | GetOrDelete header => Some (fst (handleSessionRequest header s))
  | Initialized t id =>
      match heap s !! t with
      | Some _ =>
          if is_uuid id then
            Some (onsessioninitialized t id
                    {| transports := transports s;
                       heap := <[t := {| sessionId := Some id |}]> (heap s) |})
          else None
      | None => None
      end
  | Closed t =>
      match heap s !! t with
      | Some _ => Some (onclose t s)
      | None => None
      end
  end.

Fixpoint run (s : State) (events : list Event) : option State :=
  match events with
  | [] => Some s
  | e :: rest =>
      match step s e with
      | Some s' => run s' rest
      | None => None
      end
  end.

End Handlers.

(** What holds of the table along every run: an entry [id ↦ t] was
    written by the initialization of [t] under [id], one of the events
    [seen] so far, and [t] is one of the transports created. *)
Definition registered_by (seen : list Event) (s : State) : Prop :=
  ∀ (id : string) (t : handle),
    transports s !! id = Some t →
    Initialized t id ∈ seen ∧ (t < length (heap s))%nat.

End Mcp.

(** ** [sseServer.ts]: the push-stream binding *)

Module Sse.
Import Js Async.
#[local] Open Scope async_scope.

Definition vocabulary : list string := ["apple"; "banana"; "cherry"]%string.

(** [getRandomWord], given the value [Math.random()] returned. *)
Definition getRandomWord (random : double) : option string :=
  index vocabulary (floor (mul random three)).

(** The [get_secret_word] tool of the server of session [sessionId]. *)
Definition get_secret_word (sessionId : string) (random : double) : M Data :=
  let word := getRandomWord random in
  logger (Console.SecretWord sessionId word) ;;;
  ret (text_result (match word with
                    | Some w => JStr w
                    | None => JUndefined
                    end)).

(** The notification carrying [value]. *)
Definition notification (value : Z) : Data :=
  JObj [("method", JStr "notifications/message");
        ("params", JObj [("level", JStr "info");
                         ("data", JObj [("type", JStr "text");
                                        ("text", JStr (show value ++ " "))])])]%string.

(** The [for] loop of [stream_numbers] from counter [i] on with the
    accumulator built so far, and the [return] after it. The notification
    is sent without being awaited, a rejection is logged. *)
Fixpoint stream_numbers_from (fuel : nat) (sessionId : string) (count : number)
  (extra : Extra) (i : Z) (accumulator : string) : M Data :=
  match fuel with
  | O => out_of_fuel
  | S fuel' =>
      if le (of_Z i) count then
        logger (Console.StreamSending sessionId i) ;;;
        let value := i * 2 in
        let! promise := sendNotification extra (notification value) in
        catch promise
          (λ err, logger (Console.StreamSendError sessionId i err)) ;;;
        logger (Console.Streamed sessionId i) ;;;
        let accumulator := (accumulator ++ (show value ++ " "))%string in
        sleep 100 ;;;
        stream_numbers_from fuel' sessionId count extra (i + 1) accumulator
      else
        ret (text_result (JStr accumulator))
  end.

(** The [stream_numbers] tool of the server of session [sessionId]. *)
Definition stream_numbers (fuel : nat) (sessionId : string) (count : number)
  (extra : Extra) : M Data :=
  logger (Console.StreamStart sessionId count) ;;;
  stream_numbers_from fuel sessionId count extra 1 "".

(** Transport and server objects are handles, numbered as created. *)
Definition handle := nat.

(** The process state: the [transports] and [servers] objects, and how
    many objects were created. *)
Record State := {
  transports : gmap string handle;
  servers : gmap string handle;
  created : nat
}.

Definition initial : State := {| transports := ∅; servers := ∅; created := 0 |}.

(** What a route handler or callback did, in order. *)
Inductive Action :=
| Log (line : Console.Line)
| Connect (server transport : handle)
| TransportClose (t : handle)
| ServerClose (server : handle)
| HandlePostMessage (t : handle) (body : Data)
| SendText (status : Z) (body : string)
| TypeError (callee : string).

(** [app.get("/sse")], for the session id the new [SSEServerTransport]
    generated. *)
Definition get_sse (sessionId : string) (s : State) : State * list Action :=
  let transport := created s in
  let server := S (created s) in
  ({| transports := set (transports s) sessionId transport;
      servers := set (servers s) sessionId server;
      created := S (S (created s)) |},
   [Log (Console.Connected sessionId);
    Log (Console.ServerCreated sessionId);
    Connect server transport]).

(** The [close] listener [app.get("/sse")] installs on the response, for
    the session id and transport it captured. *)
Definition on_close (sessionId : string) (transport : handle) (s : State)
  : State * list Action :=
  let transports' := delete_ (transports s) sessionId in
  match get (servers s) sessionId with
  | Some (Own server) =>
      ({| transports := transports';
          servers := delete_ (servers s) sessionId;
          created := created s |},
       [Log (Console.Disconnected sessionId); TransportClose transport;
        ServerClose server])
  | Some (Inherited name) =>
      ({| transports := transports'; servers := servers s; created := created s |},
       [Log (Console.Disconnected sessionId); TransportClose transport;
        TypeError (name ++ ".close")])
  | None =>
      ({| transports := transports'; servers := servers s; created := created s |},
       [Log (Console.Disconnected sessionId); TransportClose transport])
  end.

(** [await transport.handlePostMessage(req, res, body)], for [transport]
    the value read from [transports]. *)
Definition handlePostMessage (transport : Value handle) (body : Data) : Action :=
  match transport with
  | Own t => HandlePostMessage t body
  | Inherited name => TypeError (name ++ ".handlePostMessage")
  end.

(** [app.post("/sse")], for the [sessionId] query parameter and the parsed
    body. *)
Definition post_sse (sessionId : option string) (body : Data) (s : State)
  : State * list Action :=
  match and_get sessionId (transports s) with
  | None =>
      (s, [Log (Console.InvalidLegacyPost sessionId);
           SendText 400 "Invalid or missing sessionId"])
  | Some transport =>
      (s, [Log (Console.IncomingLegacy sessionId);
           handlePostMessage transport body])
  end.

(** [app.post("/messages")]. *)
Definition post_messages (sessionId : option string) (body : Data) (s : State)
  : State * list Action :=
  match and_get sessionId (transports s) with
  | None =>
      (s, [Log (Console.InvalidMessagesPost sessionId);
           SendText 400 "Invalid or missing sessionId"])
  | Some transport =>
      (s, [Log (Console.IncomingMessages sessionId);
           handlePostMessage transport body])
  end.

(** The text a notification of [stream_numbers] carries. *)
Definition text_of (n : Data) : string :=
  match n with
  | JObj [(_, _); (_, JObj [(_, _); (_, JObj [(_, _); (_, JStr text)])])] => text
  | _ => ""
  end.

(** The texts of a list, one after the other. *)
Definition joined (texts : list string) : string :=
  foldr String.append "" texts.

(** What a handler did apart from logging. *)
Definition is_log (a : Action) : bool :=
  match a with Log _ => true | _ => false end.

Definition unlogged (actions : list Action) : list Action :=
  List.filter (λ a, negb (is_log a)) actions.


(** The process as its environment sees it: the state, and the [close]
    listeners installed by [app.get("/sse")] that have not fired yet, each
    with the session id and the transport it captured. *)
Record Process := {
  state : State;
  listeners : list (string * handle)
}.

Definition boot : Process := {| state := initial; listeners := [] |}.

(** What happens to the process: a client opens the stream, a connection
    closes, a message is posted to one of the two endpoints. *)
Inductive Event :=
| Opened (sessionId : string)
| ConnectionClosed (sessionId : string) (transport : handle)
| PostedSse (sessionId : option string) (body : Data)
| PostedMessages (sessionId : option string) (body : Data).

(** One step. A stream is opened under the id the new transport took from
    [randomUUID], an id no open connection has. A connection closes once:
    its listener runs and is gone. Other events cannot occur ([None]). *)
Definition step (p : Process) (e : Event) : option Process :=
  match e with
  | Opened id =>
      if is_uuid id && bool_decide (id ∉ (listeners p).*1) then
        Some {| state := fst (get_sse id (state p));
                listeners := (id, created (state p)) :: listeners p |}
      else None
  | ConnectionClosed id t =>
      if bool_decide ((id, t) ∈ listeners p) then
        Some {| state := fst (on_close id t (state p));
                listeners := filter (λ l, l ≠ (id, t)) (listeners p) |}
      else None
  | PostedSse sessionId body =>
      Some {| state := fst (post_sse sessionId body (state p));
              listeners := listeners p |}
  | PostedMessages sessionId body =>
      Some {| state := fst (post_messages sessionId body (state p));
              listeners := listeners p |}
  end.

Fixpoint run (p : Process) (events : list Event) : option Process :=
  match events with
  | [] => Some p
  | e :: rest =>
      match step p e with
      | Some p' => run p' rest
      | None => None
      end
  end.

(** What holds of the tables along every run: [transports] holds exactly
    the open connections, [servers] holds the server created right after
    each of their transports, the ids are generated ones and the handles
    are among those created. *)
Definition in_step (p : Process) : Prop :=
  (∀ (id : string) (t : handle),
     transports (state p) !! id = Some t ↔ (id, t) ∈ listeners p) ∧
  (∀ id : string, servers (state p) !! id = S <$> transports (state p) !! id) ∧
  (∀ (id : string) (t : handle),
     (id, t) ∈ listeners p → is_uuid id = true ∧ (t < created (state p))%nat).

End Sse.

(** ** Values used in examples *)

Module Sample.
Import Js.

(** A stand-in for the SDK's [isInitializeRequest]: the body is an object
    whose [method] is ["initialize"]. *)
Definition has_initialize_method (body : Data) : bool :=
  match body with
  | JObj fields =>
      existsb (λ kv, match kv with
                     | (k, JStr m) => String.eqb k "method" && String.eqb m "initialize"
                     | _ => false
                     end) fields
  | _ => false
  end.

Definition initialize_body : Data :=
  JObj [("jsonrpc", JStr "2.0"); ("id", JNum 1); ("method", JStr "initialize")]%string.

Definition tools_list_body : Data :=
  JObj [("jsonrpc", JStr "2.0"); ("id", JNum 2); ("method", JStr "tools/list")]%string.

(** A session id of the form [randomUUID] returns. *)
Definition session : string := "123e4567-e89b-42d3-a456-426614174000".

(** A transport on which every notification is delivered, and one on which
    the second call of [sendNotification] is rejected. *)
Definition reliable : Async.Extra := {| Async.settles := λ _ _, None |}.

Definition second_fails : Async.Extra :=
  {| Async.settles := λ k _, if (k =? 1)%nat then Some "Not connected"%string else None |}.

(** The largest double below 1. *)
Definition almost_one : double := {| mant := 2 ^ 53 - 1; expo := -53 |}.

End Sample.

(** * Properties *)

(** ** The model on a few inputs *)

Section Examples.
Import Js Async.

Example uuid_sample : is_uuid Sample.session = true.
Proof. reflexivity. Qed.

Example uuid_constructor : is_uuid "constructor" = false.
Proof. reflexivity. Qed.

Example get_constructor :
  get (∅ : gmap string nat) "constructor" = Some (Inherited "constructor").
Proof. reflexivity. Qed.

Example get_unknown : get (∅ : gmap string nat) Sample.session = None.
Proof. reflexivity. Qed.

(** The largest double below 1, times 3, is the largest double below 3. *)
Example mul_almost_one :
  mul Sample.almost_one three = {| mant := 3 * 2 ^ 51 - 1; expo := -51 |}.
Proof. reflexivity. Qed.

(** [0.1 * 3] is [0.30000000000000004]: the product is rounded up. *)
Example mul_one_tenth :
  mul {| mant := 7205759403792794; expo := -56 |} three
  = {| mant := 5404319552844596; expo := -54 |}.
Proof. reflexivity. Qed.

Example random_word_low : Mcp.getRandomWord {| mant := 0; expo := 0 |} = Some "apple"%string.
Proof. reflexivity. Qed.

Example random_word_middle : Mcp.getRandomWord {| mant := 1; expo := -1 |} = Some "banana"%string.
Proof. reflexivity. Qed.

Example random_word_high : Sse.getRandomWord Sample.almost_one = Some "cherry"%string.
Proof. reflexivity. Qed.

Example sse_stream_numbers_three_second_fails :
  Sse.stream_numbers 4 "s" (of_Z 3) Sample.second_fails start
  = ({| sent := [Sse.notification 2; Sse.notification 4; Sse.notification 6];
        timers := [100; 100; 100];
        console := [Console.StreamStart "s" (of_Z 3);
                    Console.StreamSending "s" 1; Console.Streamed "s" 1;
                    Console.StreamSending "s" 2;
                    Console.StreamSendError "s" 2 "Not connected";
                    Console.Streamed "s" 2;
                    Console.StreamSending "s" 3; Console.Streamed "s" 3] |},
     Fulfilled (text_result (JStr "2 4 6 "))).
Proof. reflexivity. Qed.

(** A fractional [count]: two turns for [count = 2.5]. *)
Example mcp_stream_numbers_fractional :
  sent (fst (Mcp.stream_numbers 3 (Finite (5 # 2)) Sample.reliable start))
  = [Mcp.notification 1; Mcp.notification 2].
Proof. reflexivity. Qed.

(** [count = Infinity]: the loop is still running when the fuel is spent. *)
Example mcp_stream_numbers_infinity :
  snd (Mcp.stream_numbers 5 Infinity Sample.reliable start) = Pending.
Proof. reflexivity. Qed.

Example post_mcp_initialize_then_known :
  Mcp.run Sample.has_initialize_method Mcp.initial
    [Mcp.Post None Sample.initialize_body; Mcp.Initialized 0%nat Sample.session]
  = Some {| Mcp.transports := {[ Sample.session := 0%nat ]};
            Mcp.heap := [{| Mcp.sessionId := Some Sample.session |}] |}.
Proof. vm_compute. reflexivity. Qed.

End Examples.

(** ** Facts about the JavaScript values *)

Section JsFacts.
Import Js.

Lemma uuid_not_inherited (id : string) :
  is_uuid id = true → id ∉ object_prototype_keys.
Proof.
  intros Huuid Hin. unfold object_prototype_keys in Hin.
  repeat (apply elem_of_cons in Hin as [->|Hin]; [vm_compute in Huuid; discriminate|]).
  by apply elem_of_nil in Hin.
Qed.

Lemma uuid_truthy (id : string) : is_uuid id = true → truthy_string id = true.
Proof. destruct id; [discriminate|reflexivity]. Qed.

Lemma get_own {A} (obj : gmap string A) (k : string) (a : A) :
  obj !! k = Some a → get obj k = Some (Own a).
Proof. intros H. unfold get. by rewrite H. Qed.

Lemma get_undefined {A} (obj : gmap string A) (k : string) :
  obj !! k = None → k ∉ object_prototype_keys → get obj k = None.
Proof.
  intros H Hk. unfold get. rewrite H.
  by rewrite bool_decide_eq_false_2.
Qed.

Lemma get_inherited {A} (obj : gmap string A) (k : string) :
  obj !! k = None → k ∈ object_prototype_keys → get obj k = Some (Inherited k).
Proof.
  intros H Hk. unfold get. rewrite H.
  by rewrite bool_decide_eq_true_2.
Qed.

Lemma and_get_falsy {A} (k : option string) (obj : gmap string A) :
  truthy k = false → and_get k obj = None.
Proof. destruct k as [s|]; simpl; [intros ->|]; done. Qed.

Lemma and_get_truthy {A} (id : string) (obj : gmap string A) :
  truthy_string id = true → and_get (Some id) obj = get obj id.
Proof. simpl. by intros ->. Qed.

Lemma delete_absent {A} (obj : gmap string A) (k : string) :
  obj !! k = None → delete_ obj k = obj.
Proof. apply delete_id. Qed.

Lemma append_empty_r (s : string) : (s ++ "")%string = s.
Proof.
  induction s as [|c s IH]; [done|].
  change (String c (s ++ "") = String c s). by rewrite IH.
Qed.

Lemma append_assoc (s1 s2 s3 : string) :
  ((s1 ++ s2) ++ s3)%string = (s1 ++ (s2 ++ s3))%string.
Proof.
  induction s1 as [|c s1 IH]; [done|].
  change (String c ((s1 ++ s2) ++ s3) = String c (s1 ++ (s2 ++ s3))).
  by rewrite IH.
Qed.

Lemma le_of_Z (i c : Z) : le (of_Z i) (of_Z c) = (i <=? c).
Proof.
  unfold le, of_Z. apply eq_true_iff_eq.
  rewrite Qle_bool_iff, <- Zle_Qle. symmetry. apply Z.leb_le.
Qed.

Lemma le_one_below (count : number) :
  lt count (of_Z 1) = true ∨ count = NaN → le (of_Z 1) count = false.
Proof.
  intros [H| ->]; [|done].
  destruct count; simpl in *; try done.
  by apply negb_true_iff.
Qed.

(** Rounding keeps at most two low bits of a product of a 53-bit mantissa
    by 3 out, and moves the value up by at most half of what they weigh. *)
Lemma round_nearest_even_shift (p e : Z) :
  0 ≤ p < 3 * 2 ^ 53 → -1074 ≤ e →
  ∃ q shift, round_nearest_even p e = (q, shift) ∧ 0 ≤ q ∧
    0 ≤ shift ≤ 2 ∧ q * 2 ^ shift ≤ p + shift ∧ (0 < shift → 2 ^ 53 ≤ p).
Proof.
  intros Hp He. unfold round_nearest_even.
  set (l := Z.log2 p).
  assert (Hl : 0 ≤ l ≤ 54).
  { split; [apply Z.log2_nonneg|].
    destruct (Z.eq_dec p 0) as [->|Hne]; [done|].
    assert (l < 55); [|lia].
    apply Z.log2_lt_pow2; lia. }
  assert (Hlow : 53 ≤ l → 2 ^ 53 ≤ p).
  { intros H53. destruct (Z.eq_dec p 0) as [->|Hne]; [subst l; simpl in H53; lia|].
    destruct (Z.log2_spec p) as [Hlo _]; [lia|]. fold l in Hlo.
    etrans; [|exact Hlo]. apply Z.pow_le_mono_r; lia. }
  assert (Hshift : Z.max 0 (Z.max (l - 52) (-1074 - e)) = Z.max 0 (l - 52)) by lia.
  rewrite Hshift.
  assert (Hcase : l ≤ 52 ∨ l = 53 ∨ l = 54) by lia.
  destruct Hcase as [H|[H|H]].
  - replace (Z.max 0 (l - 52)) with 0 by lia. simpl.
    exists p, 0. repeat split; try lia.
  - rewrite H. change (Z.max 0 (53 - 52)) with 1. cbv beta iota zeta.
    change (1 =? 0) with false. cbv iota.
    change (2 ^ 1) with 2. change (2 ^ (1 - 1)) with 1.
    pose proof (Z.div_mod p 2 ltac:(lia)) as Hdm.
    pose proof (Z.mod_pos_bound p 2 ltac:(lia)) as Hm.
    eexists _, 1. split; [reflexivity|].
    destruct (_ || _) eqn:Hup.
    + apply orb_true_iff in Hup as [Hup|Hup]; [lia|].
      apply andb_true_iff in Hup as [Hup _]. repeat split; try lia.
    + repeat split; try lia.
  - rewrite H. change (Z.max 0 (54 - 52)) with 2. cbv beta iota zeta.
    change (2 =? 0) with false. cbv iota.
    change (2 ^ 2) with 4. change (2 ^ (2 - 1)) with 2.
    pose proof (Z.div_mod p 4 ltac:(lia)) as Hdm.
    pose proof (Z.mod_pos_bound p 4 ltac:(lia)) as Hm.
    eexists _, 2. split; [reflexivity|].
    destruct (_ || _) eqn:Hup.
    + apply orb_true_iff in Hup as [Hup|Hup]; [repeat split; lia|].
      apply andb_true_iff in Hup as [Hup _]. repeat split; try lia.
    + repeat split; try lia.
Qed.

(** [Math.floor(Math.random() * 3)] is 0, 1 or 2: the product of a double
    below 1 by 3 never rounds up to 3. *)
Lemma floor_random_times_three (r : double) :
  is_double r = true → in_unit_interval r = true →
  0 ≤ floor (mul r three) ≤ 2.
Proof.
  destruct r as [m e]. unfold is_double, in_unit_interval, mul, floor. simpl.
  rewrite !andb_true_iff, orb_true_iff, andb_true_iff.
  intros [[[Hm0 Hm1] He0] He1] Hunit.
  apply Z.leb_le in Hm0, He0, He1. apply Z.ltb_lt in Hm1.
  rewrite Z.add_0_r.
  destruct (round_nearest_even_shift (m * 3) e) as (q & shift & -> & Hq & Hs & Hqp & Hbig);
    [lia|lia|].
  simpl.
  destruct Hunit as [Hz|[Hneg Hlt]].
  - apply Z.eqb_eq in Hz. subst m.
    assert (shift = 0) by (destruct (Z.eq_dec shift 0); [done|]; lia). subst shift.
    assert (q = 0) by lia. subst q.
    rewrite Z.add_0_r. destruct (0 <=? e); [rewrite Z.mul_0_l|rewrite Zdiv_0_l]; lia.
  - apply Z.ltb_lt in Hneg, Hlt.
    set (k := - e) in *.
    assert (Hk : 0 < k) by lia.
    assert (HX : 0 < 2 ^ k) by (apply Z.pow_pos_nonneg; lia).
    assert (Hk52 : 0 < shift → 52 ≤ k).
    { intros Hpos. specialize (Hbig Hpos).
      destruct (Z.le_gt_cases 52 k) as [|Hsmall]; [done|].
      assert (2 ^ k ≤ 2 ^ 51) by (apply Z.pow_le_mono_r; lia).
      change (2 ^ 53) with (4 * 2 ^ 51) in Hbig. lia. }
    assert (Hexp : e + shift < 0) by lia.
    destruct (0 <=? e + shift) eqn:Hsign; [apply Z.leb_le in Hsign; lia|].
    replace (- (e + shift)) with (k - shift) by lia.
    assert (Hsplit : 2 ^ k = 2 ^ shift * 2 ^ (k - shift)).
    { rewrite <- Z.pow_add_r by lia. f_equal. lia. }
    assert (HY : 0 < 2 ^ (k - shift)) by (apply Z.pow_pos_nonneg; lia).
    split; [apply Z.div_pos; lia|].
    assert (q / 2 ^ (k - shift) < 3); [|lia].
    apply Z.div_lt_upper_bound; [lia|].
    assert (Hs' : shift = 0 ∨ shift = 1 ∨ shift = 2) by lia.
    destruct Hs' as [->|[->| ->]]; simpl in *; lia.
Qed.

(** An index 0, 1 or 2 into a three-element array reads an element. *)
Lemma index_three {A} (a b c : A) (i : Z) :
  0 ≤ i ≤ 2 → ∃ x, index [a; b; c] i = Some x ∧ x ∈ [a; b; c].
Proof.
  intros Hi. assert (Hcase : i = 0 ∨ i = 1 ∨ i = 2) by lia.
  destruct Hcase as [->|[->| ->]]; eexists; (split; [reflexivity|]);
    repeat constructor.
Qed.

End JsFacts.

(** ** The tools *)

Section Tools.
Import Js Async.

(** C8: whatever double in [0, 1) [Math.random()] returns, the index
    [Math.floor(Math.random() * 3)] is in bounds, [getRandomWord] returns a
    member of the vocabulary ["apple"], ["banana"], ["cherry"], and
    [get_secret_word] returns that word as its text, in both servers. *)
Theorem get_secret_word_in_vocabulary (r : double) (sessionId : string) (w : World) :
  is_double r = true → in_unit_interval r = true →
  ∃ word : string,
    word ∈ ["apple"; "banana"; "cherry"]%string ∧
    Mcp.getRandomWord r = Some word ∧
    Mcp.get_secret_word r = text_result (JStr word) ∧
    Sse.getRandomWord r = Some word ∧
    snd (Sse.get_secret_word sessionId r w) = Fulfilled (text_result (JStr word)).
Proof.
  intros Hd Hr.
  destruct (index_three "apple" "banana" "cherry"
              (floor (mul r three)))%string as (word & Hword & Hin).
  { by apply floor_random_times_three. }
  exists word.
  assert (Hm : Mcp.getRandomWord r = Some word) by exact Hword.
  assert (Hs : Sse.getRandomWord r = Some word) by exact Hword.
  unfold Mcp.get_secret_word, Sse.get_secret_word, bind, logger, ret.
  rewrite Hm, Hs. done.
Qed.

Lemma get_secret_word_in_vocabulary_witness :
  ∃ word : string,
    word ∈ ["apple"; "banana"; "cherry"]%string ∧
    Mcp.getRandomWord Sample.almost_one = Some word ∧
    Mcp.get_secret_word Sample.almost_one = text_result (JStr word) ∧
    Sse.getRandomWord Sample.almost_one = Some word ∧
    snd (Sse.get_secret_word Sample.session Sample.almost_one start)
    = Fulfilled (text_result (JStr word)).
Proof.
  apply (get_secret_word_in_vocabulary Sample.almost_one Sample.session start);
    reflexivity.
Defined.

Lemma joined_cons (text : string) (texts : list string) :
  Sse.joined (text :: texts) = (text ++ Sse.joined texts)%string.
Proof. reflexivity. Qed.

(** The loop of the push binding's [stream_numbers], with [n] iterations
    left: it sends the doubled counters in order, whatever becomes of each
    delivery, and returns the accumulator extended by their texts. *)
Lemma sse_stream_numbers_from_spec (sessionId : string) (extra : Extra) (n : nat) :
  ∀ (fuel : nat) (i : Z) (accumulator : string) (w : World),
    (n < fuel)%nat →
    ∃ w' : World,
      Sse.stream_numbers_from fuel sessionId (of_Z (i + Z.of_nat n - 1)) extra i
        accumulator w
      = (w', Fulfilled (text_result (JStr
               (accumulator ++
                Sse.joined ((λ j, show (j * 2) ++ " ") <$> seqZ i (Z.of_nat n)))%string))) ∧
      sent w' = sent w ++ ((λ j, Sse.notification (j * 2)) <$> seqZ i (Z.of_nat n)).
Proof.
  induction n as [|n IH]; intros fuel i accumulator w Hfuel;
    (destruct fuel as [|fuel]; [lia|]); cbn [Sse.stream_numbers_from];
    rewrite le_of_Z.
  - rewrite (proj2 (Z.leb_gt _ _)) by lia.
    exists w. simpl. rewrite append_empty_r, app_nil_r. done.
  - rewrite (proj2 (Z.leb_le _ _)) by lia.
    rewrite seqZ_cons by lia.
    replace (Z.pred (Z.of_nat (S n))) with (Z.of_nat n) by lia.
    replace (i + Z.of_nat (S n) - 1) with (Z.succ i + Z.of_nat n - 1) by lia.
    replace (i + 1) with (Z.succ i) by lia.
    cbv [bind logger sendNotification sleep catch ret]. cbn [sent timers console].
    destruct (settles extra _ _) as [reason|]; cbn [sent timers console];
      match goal with
      | |- context [Sse.stream_numbers_from fuel _ _ _ _ ?a ?w0] =>
          destruct (IH fuel (Z.succ i) a w0 ltac:(lia)) as (w' & -> & Hsent)
      end;
      exists w'; cbn [sent] in Hsent;
      rewrite Hsent, !fmap_cons, joined_cons, <- !app_assoc, !append_assoc; done.
Qed.

Lemma text_of_notification (value : Z) :
  Sse.text_of (Sse.notification value) = (show value ++ " ")%string.
Proof. reflexivity. Qed.

(** C9: in the push binding, for every non-negative integer [count] (and
    fuel for [count] iterations and the exit test), [stream_numbers]
    returns as its text the concatenation of the texts of the notifications
    it sent; the notifications are those of the doubled counters
    [1 * 2, ..., count * 2] in order, and the text of the [i]-th is [2 * i]
    followed by a space. *)
Theorem sse_stream_numbers_result_concatenates_notifications
  (n : nat) (sessionId : string) (extra : Extra) (fuel : nat) :
  (n < fuel)%nat →
  ∃ w : World,
    Sse.stream_numbers fuel sessionId (of_Z (Z.of_nat n)) extra start
    = (w, Fulfilled (text_result (JStr (Sse.joined (Sse.text_of <$> sent w))))) ∧
    sent w = (λ i, Sse.notification (i * 2)) <$> seqZ 1 (Z.of_nat n) ∧
    Sse.text_of <$> sent w = (λ i, (show (2 * i) ++ " ")%string) <$> seqZ 1 (Z.of_nat n).
Proof.
  intros Hfuel. unfold Sse.stream_numbers.
  cbv [bind logger]. cbn [sent timers console start].
  match goal with
  | |- context [Sse.stream_numbers_from _ _ _ _ _ _ ?w0] =>
      destruct (sse_stream_numbers_from_spec sessionId extra n fuel 1 "" w0 Hfuel)
        as (w & Hrun & Hsent)
  end.
  replace (1 + Z.of_nat n - 1) with (Z.of_nat n) in Hrun by lia.
  rewrite Hrun.
  cbn [sent app] in Hsent.
  assert (Htexts : Sse.text_of <$> sent w
                   = (λ i, (show (2 * i) ++ " ")%string) <$> seqZ 1 (Z.of_nat n)).
  { rewrite Hsent, <- list_fmap_compose. apply list_fmap_ext.
    intros _ i _. unfold compose. by rewrite text_of_notification, Z.mul_comm. }
  exists w. split; [|done].
  rewrite Htexts.
  assert (Heq : (λ j, (show (j * 2) ++ " ")%string) <$> seqZ 1 (Z.of_nat n)
                = (λ i, (show (2 * i) ++ " ")%string) <$> seqZ 1 (Z.of_nat n)).
  { apply list_fmap_ext. intros _ i _. by rewrite Z.mul_comm. }
  rewrite <- Heq. reflexivity.
Qed.

Lemma sse_stream_numbers_result_concatenates_notifications_witness :
  ∃ w : World,
    Sse.stream_numbers 4 Sample.session (of_Z (Z.of_nat 3)) Sample.second_fails start
    = (w, Fulfilled (text_result (JStr (Sse.joined (Sse.text_of <$> sent w))))) ∧
    sent w = (λ i, Sse.notification (i * 2)) <$> seqZ 1 (Z.of_nat 3) ∧
    Sse.text_of <$> sent w = (λ i, (show (2 * i) ++ " ")%string) <$> seqZ 1 (Z.of_nat 3).
Proof.
  apply (sse_stream_numbers_result_concatenates_notifications
           3 Sample.session Sample.second_fails 4).
  lia.
Defined.

(** In the push binding, [stream_numbers] with [count = 3] sends the three
    notifications ["2 "], ["4 "], ["6 "] and returns ["2 4 6 "], whichever
    deliveries fail. *)
Lemma sse_stream_numbers_three (sessionId : string) (extra : Extra) (fuel : nat) :
  (3 < fuel)%nat →
  ∃ w : World,
    Sse.stream_numbers fuel sessionId (of_Z 3) extra start
    = (w, Fulfilled (text_result (JStr "2 4 6 "))) ∧
    sent w = [Sse.notification 2; Sse.notification 4; Sse.notification 6].
Proof.
  intros Hfuel. unfold Sse.stream_numbers.
  cbv [bind logger]. cbn [sent timers console start].
  match goal with
  | |- context [Sse.stream_numbers_from _ _ _ _ _ _ ?w0] =>
      destruct (sse_stream_numbers_from_spec sessionId extra 3 fuel 1 "" w0 Hfuel)
        as (w & Hrun & Hsent)
  end.
  exists w. split; [exact Hrun | exact Hsent].
Qed.

(** In the request/response binding, [stream_numbers] with [count = 3]
    sends ["1\n"], ["2\n"], ["3\n"] and returns ["Done!"] when every
    delivery succeeds. *)
Lemma mcp_stream_numbers_three_delivered (fuel : nat) :
  Mcp.stream_numbers (4 + fuel) (of_Z 3) Sample.reliable start
  = ({| sent := [Mcp.notification 1; Mcp.notification 2; Mcp.notification 3];
        timers := [1000; 1000; 1000];
        console := [] |},
     Fulfilled (text_result (JStr "Done!"))).
Proof. reflexivity. Qed.

(** C2, at the failing input: in the request/response binding,
    [stream_numbers] with [count = 3] on a transport that rejects the
    second notification stops there. Two notifications were handed over,
    the third never is, and the handler's promise is rejected with the
    delivery's reason instead of being fulfilled with the final result. *)
Theorem mcp_stream_numbers_rejected_notification_aborts (fuel : nat) :
  Mcp.stream_numbers (2 + fuel) (of_Z 3) Sample.second_fails start
  = ({| sent := [Mcp.notification 1; Mcp.notification 2];
        timers := [1000];
        console := [] |},
     Rejected "Not connected").
Proof. reflexivity. Qed.

(** C10: for every [count] below 1 or NaN (and fuel for the exit test),
    [stream_numbers] sends no notification and returns its final result:
    the text ["Done!"] in the request/response binding, the empty string in
    the push binding. *)
Theorem stream_numbers_below_one
  (count : number) (sessionId : string) (extra : Extra) (fuel : nat) :
  lt count (of_Z 1) = true ∨ count = NaN →
  Mcp.stream_numbers (S fuel) count extra start
  = (start, Fulfilled (text_result (JStr "Done!"))) ∧
  Sse.stream_numbers (S fuel) sessionId count extra start
  = ({| sent := []; timers := []; console := [Console.StreamStart sessionId count] |},
     Fulfilled (text_result (JStr ""))).
Proof.
  intros Hcount. apply le_one_below in Hcount.
  unfold Mcp.stream_numbers, Sse.stream_numbers.
  cbv [bind logger]. cbn [Mcp.stream_numbers_from Sse.stream_numbers_from].
  by rewrite Hcount.
Qed.

Lemma stream_numbers_below_one_witness :
  Mcp.stream_numbers 1 (Finite (-1 # 2)) Sample.reliable start
  = (start, Fulfilled (text_result (JStr "Done!"))) ∧
  Sse.stream_numbers 1 Sample.session (Finite (-1 # 2)) Sample.reliable start
  = ({| sent := []; timers := [];
        console := [Console.StreamStart Sample.session (Finite (-1 # 2))] |},
     Fulfilled (text_result (JStr ""))).
Proof.
  apply (stream_numbers_below_one (Finite (-1 # 2)) Sample.session Sample.reliable 0).
  left. reflexivity.
Defined.

End Tools.

(** ** The request/response binding *)

Section McpRouting.
Import Js.

Variable isInitializeRequest : Data → bool.

#[local] Abbreviation post_mcp := (Mcp.post_mcp isInitializeRequest).
#[local] Abbreviation step := (Mcp.step isInitializeRequest).
#[local] Abbreviation run := (Mcp.run isInitializeRequest).

(** C1 as stated fails: a POST without session header whose body is not an
    initialization request is not answered with a success status. *)
Lemma post_without_session_not_http_success :
  ¬ ∃ status : Z,
      Mcp.is_success status = true ∧
      Mcp.post_mcp Sample.has_initialize_method None Sample.tools_list_body Mcp.initial
      = (Mcp.initial, [Mcp.SendJson status Mcp.no_valid_session]).
Proof.
  intros (status & Hsuccess & Hreply).
  unfold Mcp.post_mcp in Hreply. simpl in Hreply.
  injection Hreply as <-. discriminate Hsuccess.
Qed.

(** C1, amended: a POST to [/mcp] without session header whose body is not
    an initialization request is answered with status 400 and the JSON-RPC
    error envelope, and the state (the table and the transports created) is
    unchanged. *)
Theorem post_without_session_rejected (body : Data) (s : Mcp.State) :
  isInitializeRequest body = false →
  post_mcp None body s = (s, [Mcp.SendJson 400 Mcp.no_valid_session]) ∧
  Mcp.is_success 400 = false ∧
  Mcp.no_valid_session
  = JObj [("jsonrpc", JStr "2.0");
          ("error", JObj [("code", JNum (-32000));
                          ("message", JStr "Bad Request: No valid session ID provided")]);
          ("id", JNull)]%string.
Proof.
  intros Hbody. unfold Mcp.post_mcp. simpl. by rewrite Hbody.
Qed.

(** The three cases of [app.post("/mcp")]. *)
Lemma post_mcp_known (id : string) (t : Mcp.handle) (body : Data) (s : Mcp.State) :
  truthy_string id = true → Mcp.transports s !! id = Some t →
  post_mcp (Some id) body s = (s, [Mcp.HandleRequest t (Some body)]).
Proof.
  intros Hid Ht. unfold Mcp.post_mcp.
  by rewrite and_get_truthy, (get_own _ _ _ Ht).
Qed.

Lemma post_mcp_initialize (header : option string) (body : Data) (s : Mcp.State) :
  truthy header = false → isInitializeRequest body = true →
  post_mcp header body s
  = ({| Mcp.transports := Mcp.transports s;
        Mcp.heap := Mcp.heap s ++ [{| Mcp.sessionId := None |}] |},
     [Mcp.Connect (length (Mcp.heap s));
      Mcp.HandleRequest (length (Mcp.heap s)) (Some body)]).
Proof.
  intros Hheader Hbody. unfold Mcp.post_mcp.
  by rewrite and_get_falsy, Hheader, Hbody.
Qed.

Lemma post_mcp_otherwise (header : option string) (body : Data) (s : Mcp.State) :
  and_get header (Mcp.transports s) = None →
  truthy header = true ∨ isInitializeRequest body = false →
  post_mcp header body s = (s, [Mcp.SendJson 400 Mcp.no_valid_session]).
Proof.
  intros Hget Hcase. unfold Mcp.post_mcp. rewrite Hget.
  destruct Hcase as [-> | ->]; [done|]. by rewrite andb_false_r.
Qed.

(** An id that is neither registered nor the name of a member of
    [Object.prototype] is rejected, whatever the body. *)
Lemma post_mcp_unknown (id : string) (body : Data) (s : Mcp.State) :
  truthy_string id = true → Mcp.transports s !! id = None →
  id ∉ object_prototype_keys →
  post_mcp (Some id) body s = (s, [Mcp.SendJson 400 Mcp.no_valid_session]).
Proof.
  intros Hid Ht Hproto. apply post_mcp_otherwise; [|by left].
  by rewrite and_get_truthy, get_undefined.
Qed.

(** C3, at the failing input: a POST whose session id names a member of
    [Object.prototype] is not rejected, although the table holds no session
    at all. [transports["constructor"]] is truthy, the first branch is
    taken, and the call of [handleRequest] on the value read throws; no
    error envelope is sent, whatever the body. *)
Theorem post_mcp_inherited_key_not_rejected (body : Data) :
  Mcp.transports Mcp.initial !! "constructor" = None ∧
  post_mcp (Some "constructor") body Mcp.initial
  = (Mcp.initial, [Mcp.TypeError "constructor.handleRequest"]).
Proof. split; reflexivity. Qed.

(** GET and DELETE: an absent or empty header, or an id neither
    registered nor inherited, gets the plain-text 400. *)
Lemma handleSessionRequest_unknown (header : option string) (s : Mcp.State) :
  (truthy header = false ∨
   ∃ id, header = Some id ∧ Mcp.transports s !! id = None ∧
         id ∉ object_prototype_keys) →
  Mcp.handleSessionRequest header s
  = (s, [Mcp.SendText 400 "Invalid or missing session ID"]).
Proof.
  intros [Hfalsy | (id & -> & Ht & Hproto)]; unfold Mcp.handleSessionRequest.
  - by rewrite and_get_falsy.
  - simpl. destruct (truthy_string id); [|done]. by rewrite get_undefined.
Qed.

(** C7, at the failing input: a GET or DELETE whose session id names a
    member of [Object.prototype] gets no 400 although the id is not in the
    table: the guard reads a truthy [transports["constructor"]], and the
    call of [handleRequest] on it throws. *)
Theorem handleSessionRequest_inherited_key_not_rejected :
  Mcp.transports Mcp.initial !! "constructor" = None ∧
  Mcp.handleSessionRequest (Some "constructor") Mcp.initial
  = (Mcp.initial, [Mcp.TypeError "constructor.handleRequest"]).
Proof. split; reflexivity. Qed.

(** No request handler writes the table. *)
Lemma post_mcp_transports (header : option string) (body : Data) (s : Mcp.State) :
  Mcp.transports (fst (post_mcp header body s)) = Mcp.transports s.
Proof.
  unfold Mcp.post_mcp. destruct (and_get _ _); [done|].
  by destruct (negb _ && _).
Qed.

Lemma post_mcp_heap (header : option string) (body : Data) (s : Mcp.State) :
  (length (Mcp.heap s) ≤ length (Mcp.heap (fst (post_mcp header body s))))%nat.
Proof.
  unfold Mcp.post_mcp. destruct (and_get _ _); [done|].
  destruct (negb _ && _); simpl; [|done]. rewrite length_app. lia.
Qed.

Lemma handleSessionRequest_state (header : option string) (s : Mcp.State) :
  fst (Mcp.handleSessionRequest header s) = s.
Proof. unfold Mcp.handleSessionRequest. by destruct (and_get _ _). Qed.

Lemma onclose_heap (t : Mcp.handle) (s : Mcp.State) :
  Mcp.heap (Mcp.onclose t s) = Mcp.heap s.
Proof.
  unfold Mcp.onclose. destruct (Mcp.heap s !! t) as [[[id|]]|]; simpl; try done.
  by destruct (truthy_string id).
Qed.

Lemma onclose_transports (t : Mcp.handle) (s : Mcp.State) (id : string) (t' : Mcp.handle) :
  Mcp.transports (Mcp.onclose t s) !! id = Some t' →
  Mcp.transports s !! id = Some t'.
Proof.
  unfold Mcp.onclose. destruct (Mcp.heap s !! t) as [[[id0|]]|]; simpl; try done.
  destruct (truthy_string id0); [|done]. simpl. unfold delete_.
  rewrite lookup_delete_Some. by intros [_ ?].
Qed.

Lemma registered_by_step (seen : list Mcp.Event) (s s' : Mcp.State) (e : Mcp.Event) :
  Mcp.registered_by seen s → step s e = Some s' → Mcp.registered_by (seen ++ [e]) s'.
Proof.
  intros Hinv Hstep id t Hlookup.
  destruct e as [header body | header | t0 id0 | t0]; simpl in Hstep.
  - injection Hstep as <-. rewrite post_mcp_transports in Hlookup.
    destruct (Hinv id t Hlookup) as [Hseen Hlt]. split; [set_solver|].
    pose proof (post_mcp_heap header body s). lia.
  - injection Hstep as <-. rewrite handleSessionRequest_state in *.
    destruct (Hinv id t Hlookup) as [Hseen Hlt]. split; [set_solver|done].
  - destruct (Mcp.heap s !! t0) as [tr|] eqn:Hheap; [|done].
    destruct (is_uuid id0); [|done]. injection Hstep as <-.
    simpl in *. unfold set in Hlookup. rewrite length_insert.
    destruct (decide (id0 = id)) as [->|Hne].
    + rewrite lookup_insert_eq in Hlookup. injection Hlookup as ->.
      split; [set_solver|]. by eapply lookup_lt_Some.
    + rewrite lookup_insert_ne in Hlookup by done.
      destruct (Hinv id t Hlookup) as [Hseen Hlt]. split; [set_solver|done].
  - destruct (Mcp.heap s !! t0) as [tr|] eqn:Hheap; [|done].
    injection Hstep as <-. rewrite onclose_heap.
    apply onclose_transports in Hlookup.
    destruct (Hinv id t Hlookup) as [Hseen Hlt]. split; [set_solver|done].
Qed.

Lemma registered_by_run (events seen : list Mcp.Event) (s s' : Mcp.State) :
  Mcp.registered_by seen s → run s events = Some s' →
  Mcp.registered_by (seen ++ events) s'.
Proof.
  revert seen s. induction events as [|e events IH]; intros seen s Hinv Hrun.
  - injection Hrun as <-. by rewrite app_nil_r.
  - simpl in Hrun. destruct (step s e) as [s1|] eqn:Hstep; [|done].
    replace (seen ++ e :: events) with ((seen ++ [e]) ++ events)
      by (by rewrite <- app_assoc).
    eapply IH; [|exact Hrun]. by eapply registered_by_step.
Qed.

(** C5: along every run of the server from its start, an id [id] addresses
    a transport [t] in the table only if the SDK has completed the
    initialization of [t] under that very [id] earlier in the run; and the
    transport a POST has just created is addressed by no id, the handler
    having left the table as it was. *)
Theorem registered_only_once_initialized (events : list Mcp.Event) (s : Mcp.State) :
  run Mcp.initial events = Some s →
  (∀ (id : string) (t : Mcp.handle),
     Mcp.transports s !! id = Some t → Mcp.Initialized t id ∈ events) ∧
  (∀ (header : option string) (body : Data) (t : Mcp.handle),
     Mcp.Connect t ∈ snd (post_mcp header body s) →
     Mcp.transports (fst (post_mcp header body s)) = Mcp.transports s ∧
     ∀ id : string, Mcp.transports (fst (post_mcp header body s)) !! id ≠ Some t).
Proof.
  intros Hrun.
  assert (Hinv : Mcp.registered_by events s).
  { apply (registered_by_run events [] Mcp.initial s); [|done].
    intros id t Hlookup. simpl in Hlookup. by rewrite lookup_empty in Hlookup. }
  split; [intros id t Hlookup; by destruct (Hinv id t Hlookup)|].
  intros header body t Hnew. rewrite post_mcp_transports. split; [done|].
  intros id Hlookup. destruct (Hinv id t Hlookup) as [_ Hlt].
  unfold Mcp.post_mcp in Hnew.
  destruct (and_get _ _) as [[t'|name]|]; [| |destruct (negb _ && _)];
    simpl in Hnew;
    repeat (apply elem_of_cons in Hnew as [Hnew|Hnew]; [try discriminate Hnew|]);
    try (by apply elem_of_nil in Hnew).
  injection Hnew as ->. lia.
Qed.

End McpRouting.

Lemma post_without_session_rejected_witness :
  Mcp.post_mcp Sample.has_initialize_method None Sample.tools_list_body Mcp.initial
  = (Mcp.initial, [Mcp.SendJson 400 Mcp.no_valid_session]) ∧
  Mcp.is_success 400 = false ∧
  Mcp.no_valid_session
  = Js.JObj [("jsonrpc", Js.JStr "2.0");
             ("error", Js.JObj [("code", Js.JNum (-32000));
                                ("message", Js.JStr "Bad Request: No valid session ID provided")]);
             ("id", Js.JNull)]%string.
Proof.
  apply (post_without_session_rejected Sample.has_initialize_method
           Sample.tools_list_body Mcp.initial).
  reflexivity.
Defined.

Lemma registered_only_once_initialized_witness :
  let events := [Mcp.Post None Sample.initialize_body;
                 Mcp.Initialized 0%nat Sample.session;
                 Mcp.Post (Some Sample.session) Sample.tools_list_body;
                 Mcp.Post None Sample.initialize_body] in
  let s := {| Mcp.transports := {[ Sample.session := 0%nat ]};
              Mcp.heap := [{| Mcp.sessionId := Some Sample.session |};
                           {| Mcp.sessionId := None |}] |} in
  (∀ (id : string) (t : Mcp.handle),
     Mcp.transports s !! id = Some t → Mcp.Initialized t id ∈ events) ∧
  (∀ (header : option string) (body : Js.Data) (t : Mcp.handle),
     Mcp.Connect t ∈ snd (Mcp.post_mcp Sample.has_initialize_method header body s) →
     Mcp.transports (fst (Mcp.post_mcp Sample.has_initialize_method header body s))
     = Mcp.transports s ∧
     ∀ id : string,
       Mcp.transports (fst (Mcp.post_mcp Sample.has_initialize_method header body s)) !! id
       ≠ Some t).
Proof.
  intros events s.
  apply (registered_only_once_initialized Sample.has_initialize_method events s).
  vm_compute. reflexivity.
Defined.

(** ** The push-stream binding, and the end of a session *)

Section Sessions.
Import Js.

Variable isInitializeRequest : Data → bool.

(** The two message endpoints answer alike and hand the same message to
    the same transport; they differ in the lines they log. *)
Lemma post_sse_post_messages_alike (sessionId : option string) (body : Data)
  (s : Sse.State) :
  fst (Sse.post_sse sessionId body s) = fst (Sse.post_messages sessionId body s) ∧
  fst (Sse.post_sse sessionId body s) = s ∧
  Sse.unlogged (snd (Sse.post_sse sessionId body s))
  = Sse.unlogged (snd (Sse.post_messages sessionId body s)).
Proof.
  unfold Sse.post_sse, Sse.post_messages.
  by destruct (and_get _ _) as [[t|name]|].
Qed.

Lemma post_sse_known (id : string) (t : Sse.handle) (body : Data) (s : Sse.State) :
  truthy_string id = true → Sse.transports s !! id = Some t →
  Sse.unlogged (snd (Sse.post_sse (Some id) body s)) = [Sse.HandlePostMessage t body] ∧
  Sse.unlogged (snd (Sse.post_messages (Some id) body s)) = [Sse.HandlePostMessage t body].
Proof.
  intros Hid Ht. unfold Sse.post_sse, Sse.post_messages.
  by rewrite and_get_truthy, (get_own _ _ _ Ht).
Qed.

Lemma post_sse_unknown (sessionId : option string) (body : Data) (s : Sse.State) :
  (truthy sessionId = false ∨
   ∃ id, sessionId = Some id ∧ Sse.transports s !! id = None ∧
         id ∉ object_prototype_keys) →
  Sse.post_sse sessionId body s
  = (s, [Sse.Log (Console.InvalidLegacyPost sessionId);
         Sse.SendText 400 "Invalid or missing sessionId"]) ∧
  Sse.post_messages sessionId body s
  = (s, [Sse.Log (Console.InvalidMessagesPost sessionId);
         Sse.SendText 400 "Invalid or missing sessionId"]).
Proof.
  unfold Sse.post_sse, Sse.post_messages.
  intros [Hfalsy | (id & -> & Ht & Hproto)].
  - by rewrite and_get_falsy.
  - simpl. destruct (truthy_string id); [|done]. by rewrite get_undefined.
Qed.

(** C4, at the failing input: with no transport registered at all, a POST
    to [/sse] or to [/messages] whose [sessionId] parameter names a member
    of [Object.prototype] gets no 400 from either endpoint. Both read a
    truthy [transports["constructor"]], go on to log the call as incoming,
    and throw on calling [handlePostMessage] on the value read. *)
Theorem post_sse_inherited_key_not_rejected (body : Data) :
  Sse.transports Sse.initial !! "constructor" = None ∧
  Sse.post_sse (Some "constructor") body Sse.initial
  = (Sse.initial, [Sse.Log (Console.IncomingLegacy (Some "constructor"));
                   Sse.TypeError "constructor.handlePostMessage"]) ∧
  Sse.post_messages (Some "constructor") body Sse.initial
  = (Sse.initial, [Sse.Log (Console.IncomingMessages (Some "constructor"));
                   Sse.TypeError "constructor.handlePostMessage"]).
Proof. repeat split; reflexivity. Qed.

Lemma get_inherited_inv {A} (obj : gmap string A) (k name : string) :
  get obj k = Some (Inherited name) → k ∈ object_prototype_keys.
Proof.
  unfold get. destruct (obj !! k); [done|].
  destruct (bool_decide _) eqn:Hk; [|done].
  intros _. by apply bool_decide_eq_true_1 in Hk.
Qed.

Lemma get_undefined_inv {A} (obj : gmap string A) (k : string) :
  get obj k = None → obj !! k = None.
Proof. unfold get. by destruct (obj !! k). Qed.

(** The [close] listener of the push binding removes the session from
    both tables. *)
Lemma on_close_removes (id : string) (t : Sse.handle) (s : Sse.State) :
  is_uuid id = true →
  Sse.transports (fst (Sse.on_close id t s)) !! id = None ∧
  Sse.servers (fst (Sse.on_close id t s)) !! id = None.
Proof.
  intros Huuid. unfold Sse.on_close, delete_.
  destruct (get (Sse.servers s) id) as [[server|name]|] eqn:Hget; simpl.
  - by rewrite !lookup_delete_eq.
  - apply get_inherited_inv in Hget. by apply uuid_not_inherited in Hget.
  - apply get_undefined_inv in Hget. by rewrite lookup_delete_eq.
Qed.

(** Once both tables lack the id, the listener changes nothing. *)
Lemma on_close_absent (id : string) (t : Sse.handle) (s : Sse.State) :
  is_uuid id = true →
  Sse.transports s !! id = None → Sse.servers s !! id = None →
  fst (Sse.on_close id t s) = s.
Proof.
  intros Huuid Ht Hs. unfold Sse.on_close.
  rewrite (get_undefined _ _ Hs (uuid_not_inherited _ Huuid)), delete_absent by done.
  by destruct s.
Qed.

(** The [onclose] callback of the request/response binding removes the id
    the transport was initialized under. *)
Lemma onclose_removes (id : string) (t : Mcp.handle) (s : Mcp.State) :
  is_uuid id = true →
  Mcp.sessionId <$> Mcp.heap s !! t = Some (Some id) →
  Mcp.onclose t s
  = {| Mcp.transports := delete_ (Mcp.transports s) id; Mcp.heap := Mcp.heap s |}.
Proof.
  intros Huuid Hheap. unfold Mcp.onclose.
  destruct (Mcp.heap s !! t) as [[sid]|]; simpl in *; [|done].
  injection Hheap as ->. by rewrite uuid_truthy.
Qed.

(** C6: once the session [id] (an id as [randomUUID] generates them) is
    destroyed - in the push binding by the [close] listener of its
    connection, in the request/response binding by the [onclose] callback
    of its transport - the tables have no entry for [id], reading
    [transports[id]] gives [undefined], every later request naming [id] is
    answered as one for an unknown session (the 400 replies), running the
    destruction again changes nothing, and deleting a key a table lacks
    leaves the table as it is. *)
Theorem destroyed_session_is_unknown
  (id : string) (body : Data)
  (s : Sse.State) (t : Sse.handle) (m : Mcp.State) (mt : Mcp.handle) :
  is_uuid id = true →
  Mcp.sessionId <$> Mcp.heap m !! mt = Some (Some id) →
  let s' := fst (Sse.on_close id t s) in
  let m' := Mcp.onclose mt m in
  (Sse.transports s' !! id = None ∧ Sse.servers s' !! id = None ∧
   get (Sse.transports s') id = None ∧
   Sse.post_sse (Some id) body s'
   = (s', [Sse.Log (Console.InvalidLegacyPost (Some id));
           Sse.SendText 400 "Invalid or missing sessionId"]) ∧
   Sse.post_messages (Some id) body s'
   = (s', [Sse.Log (Console.InvalidMessagesPost (Some id));
           Sse.SendText 400 "Invalid or missing sessionId"]) ∧
   fst (Sse.on_close id t s') = s') ∧
  (Mcp.transports m' !! id = None ∧
   get (Mcp.transports m') id = None ∧
   Mcp.post_mcp isInitializeRequest (Some id) body m'
   = (m', [Mcp.SendJson 400 Mcp.no_valid_session]) ∧
   Mcp.handleSessionRequest (Some id) m'
   = (m', [Mcp.SendText 400 "Invalid or missing session ID"]) ∧
   Mcp.onclose mt m' = m') ∧
  (∀ (k : string) (table : gmap string nat),
     table !! k = None → delete_ table k = table).
Proof.
  intros Huuid Hheap s' m'.
  pose proof (uuid_not_inherited id Huuid) as Hproto.
  pose proof (uuid_truthy id Huuid) as Htruthy.
  destruct (on_close_removes id t s Huuid) as [Ht Hs]. fold s' in Ht, Hs.
  assert (Hm : Mcp.transports m' !! id = None).
  { subst m'. rewrite (onclose_removes id mt m Huuid Hheap). simpl.
    unfold delete_. by rewrite lookup_delete_eq. }
  split; [|split].
  - split; [done|]. split; [done|]. split; [by apply get_undefined|].
    destruct (post_sse_unknown (Some id) body s') as [Hlegacy Hmodern];
      [right; by exists id|].
    split; [done|]. split; [done|]. by apply on_close_absent.
  - split; [done|]. split; [by apply get_undefined|].
    split; [by apply post_mcp_unknown|].
    split; [apply handleSessionRequest_unknown; right; by exists id|].
    assert (Hheap' : Mcp.sessionId <$> Mcp.heap m' !! mt = Some (Some id)).
    { subst m'. by rewrite onclose_heap. }
    rewrite (onclose_removes id mt m' Huuid Hheap'), delete_absent by done.
    by destruct m'.
  - intros k table. apply delete_absent.
Qed.

End Sessions.

Lemma destroyed_session_is_unknown_witness :
  let id := Sample.session in
  let body := Sample.tools_list_body in
  let s := fst (Sse.get_sse id Sse.initial) in
  let m := {| Mcp.transports := {[ id := 0%nat ]};
              Mcp.heap := [{| Mcp.sessionId := Some id |}] |} in
  let s' := fst (Sse.on_close id 0%nat s) in
  let m' := Mcp.onclose 0%nat m in
  (Sse.transports s' !! id = None ∧ Sse.servers s' !! id = None ∧
   Js.get (Sse.transports s') id = None ∧
   Sse.post_sse (Some id) body s'
   = (s', [Sse.Log (Console.InvalidLegacyPost (Some id));
           Sse.SendText 400 "Invalid or missing sessionId"]) ∧
   Sse.post_messages (Some id) body s'
   = (s', [Sse.Log (Console.InvalidMessagesPost (Some id));
           Sse.SendText 400 "Invalid or missing sessionId"]) ∧
   fst (Sse.on_close id 0%nat s') = s') ∧
  (Mcp.transports m' !! id = None ∧
   Js.get (Mcp.transports m') id = None ∧
   Mcp.post_mcp Sample.has_initialize_method (Some id) body m'
   = (m', [Mcp.SendJson 400 Mcp.no_valid_session]) ∧
   Mcp.handleSessionRequest (Some id) m'
   = (m', [Mcp.SendText 400 "Invalid or missing session ID"]) ∧
   Mcp.onclose 0%nat m' = m') ∧
  (∀ (k : string) (table : gmap string nat),
     table !! k = None → Js.delete_ table k = table).
Proof.
  intros id body s m.
  apply (destroyed_session_is_unknown Sample.has_initialize_method id body s 0%nat m 0%nat);
    reflexivity.
Defined.

(** * Further properties *)

(** ** The loops of [stream_numbers] *)

Section Streams.
Import Js Async.

(** Comparing an integer with a number compares it with the number's
    floor. *)
Lemma le_of_Z_finite (i : Z) (q : Q) : le (of_Z i) (Finite q) = (i <=? Qfloor q).
Proof.
  unfold le, of_Z. apply eq_true_iff_eq.
  rewrite Qle_bool_iff, Z.leb_le. split.
  - intros H. apply Qfloor_resp_le in H. by rewrite Qfloor_Z in H.
  - intros H. apply Qle_trans with (inject_Z (Qfloor q)); [by rewrite <- Zle_Qle|].
    apply Qfloor_le.
Qed.

Lemma le_floor (i : Z) (q : Q) : le (of_Z i) (Finite q) = le (of_Z i) (of_Z (Qfloor q)).
Proof. by rewrite le_of_Z_finite, le_of_Z. Qed.

Lemma le_of_Z_mono (a b : Z) (count : number) :
  b ≤ a → le (of_Z a) count = true → le (of_Z b) count = true.
Proof.
  intros Hba. destruct count as [| | |q]; simpl; try done.
  rewrite !Qle_bool_iff. intros Ha.
  apply Qle_trans with (inject_Z a); [by rewrite <- Zle_Qle|done].
Qed.

(** The loop of the request/response binding with [n] turns left, all of
    them delivered. *)
Lemma mcp_stream_numbers_from_delivered (extra : Extra) (n : nat) :
  ∀ (fuel : nat) (i : Z) (w : World),
    (n < fuel)%nat →
    (∀ k : nat, (k < n)%nat →
       settles extra (length (sent w) + k)%nat (Mcp.notification (i + Z.of_nat k)) = None) →
    Mcp.stream_numbers_from fuel (of_Z (i + Z.of_nat n - 1)) extra i w
    = ({| sent := sent w ++ (Mcp.notification <$> seqZ i (Z.of_nat n));
          timers := timers w ++ replicate n 1000;
          console := console w |},
       Fulfilled (text_result (JStr "Done!"))).
Proof.
  induction n as [|n IH]; intros fuel i w Hfuel Hok;
    (destruct fuel as [|fuel]; [lia|]); cbn [Mcp.stream_numbers_from];
    rewrite le_of_Z.
  - rewrite (proj2 (Z.leb_gt _ _)) by lia.
    cbv [ret]. simpl. rewrite !app_nil_r. by destruct w.
  - rewrite (proj2 (Z.leb_le _ _)) by lia.
    pose proof (Hok 0%nat ltac:(lia)) as H0.
    rewrite Nat.add_0_r, Z.add_0_r in H0.
    cbv [bind sendNotification await sleep ret]. cbn [sent timers console].
    rewrite H0. cbn [sent timers console].
    replace (i + Z.of_nat (S n) - 1) with (Z.succ i + Z.of_nat n - 1) by lia.
    replace (i + 1) with (Z.succ i) by lia.
    rewrite IH; [|lia|].
    + cbn [sent timers console]. rewrite (seqZ_cons i) by lia.
      replace (Z.pred (Z.of_nat (S n))) with (Z.of_nat n) by lia.
      rewrite fmap_cons. cbn [replicate]. by rewrite <- !app_assoc.
    + intros k Hk. cbn [sent]. rewrite length_app. simpl.
      specialize (Hok (S k) ltac:(lia)).
      replace (length (sent w) + 1 + k)%nat with (length (sent w) + S k)%nat by lia.
      replace (Z.succ i + Z.of_nat k) with (i + Z.of_nat (S k)) by lia. done.
Qed.

(** The same loop when the delivery of turn [k] (from 0) is the first one
    rejected. *)
Lemma mcp_stream_numbers_from_rejected (extra : Extra) (count : number) (reason : string)
  (k : nat) :
  ∀ (fuel : nat) (i : Z) (w : World),
    (k < fuel)%nat →
    le (of_Z (i + Z.of_nat k)) count = true →
    (∀ j : nat, (j < k)%nat →
       settles extra (length (sent w) + j)%nat (Mcp.notification (i + Z.of_nat j)) = None) →
    settles extra (length (sent w) + k)%nat (Mcp.notification (i + Z.of_nat k)) = Some reason →
    Mcp.stream_numbers_from fuel count extra i w
    = ({| sent := sent w ++ (Mcp.notification <$> seqZ i (Z.of_nat (S k)));
          timers := timers w ++ replicate k 1000;
          console := console w |},
       Rejected reason).
Proof.
  induction k as [|k IH]; intros fuel i w Hfuel Hle Hok Hfail;
    (destruct fuel as [|fuel]; [lia|]); cbn [Mcp.stream_numbers_from].
  - rewrite Z.add_0_r in Hle. rewrite Hle.
    rewrite Nat.add_0_r, Z.add_0_r in Hfail.
    cbv [bind sendNotification await sleep ret throw]. cbn [sent timers console].
    rewrite Hfail. simpl. by rewrite app_nil_r.
  - rewrite (le_of_Z_mono (i + Z.of_nat (S k)) i count) by (lia || done).
    pose proof (Hok 0%nat ltac:(lia)) as H0.
    rewrite Nat.add_0_r, Z.add_0_r in H0.
    cbv [bind sendNotification await sleep ret]. cbn [sent timers console].
    rewrite H0. cbn [sent timers console].
    replace (i + 1) with (Z.succ i) by lia.
    rewrite IH; [|lia| | |].
    + cbn [sent timers console]. rewrite (seqZ_cons i) by lia.
      replace (Z.pred (Z.of_nat (S (S k)))) with (Z.of_nat (S k)) by lia.
      rewrite fmap_cons. cbn [replicate]. by rewrite <- !app_assoc.
    + replace (Z.succ i + Z.of_nat k) with (i + Z.of_nat (S k)) by lia. done.
    + intros j Hj. cbn [sent]. rewrite length_app. simpl.
      specialize (Hok (S j) ltac:(lia)).
      replace (length (sent w) + 1 + j)%nat with (length (sent w) + S j)%nat by lia.
      replace (Z.succ i + Z.of_nat j) with (i + Z.of_nat (S j)) by lia. done.
    + cbn [sent]. rewrite length_app. simpl.
      replace (length (sent w) + 1 + k)%nat with (length (sent w) + S k)%nat by lia.
      replace (Z.succ i + Z.of_nat k) with (i + Z.of_nat (S k)) by lia. done.
Qed.

(** X1: in the request/response binding, [stream_numbers] with an integer
    [count = n >= 0] whose [n] deliveries all succeed sends the
    notifications of 1, ..., [n] in that order, pauses a second after each,
    logs nothing and returns ["Done!"]. *)
Theorem mcp_stream_numbers_all_delivered (n fuel : nat) (extra : Extra) :
  (n < fuel)%nat →
  (∀ k : nat, (k < n)%nat →
     settles extra k (Mcp.notification (1 + Z.of_nat k)) = None) →
  Mcp.stream_numbers fuel (of_Z (Z.of_nat n)) extra start
  = ({| sent := Mcp.notification <$> seqZ 1 (Z.of_nat n);
        timers := replicate n 1000;
        console := [] |},
     Fulfilled (text_result (JStr "Done!"))).
Proof.
  intros Hfuel Hok. unfold Mcp.stream_numbers.
  replace (Z.of_nat n) with (1 + Z.of_nat n - 1) at 1 by lia.
  by rewrite mcp_stream_numbers_from_delivered.
Qed.

Lemma mcp_stream_numbers_all_delivered_witness :
  Mcp.stream_numbers 4 (of_Z (Z.of_nat 3)) Sample.reliable start
  = ({| sent := Mcp.notification <$> seqZ 1 (Z.of_nat 3);
        timers := replicate 3 1000;
        console := [] |},
     Fulfilled (text_result (JStr "Done!"))).
Proof.
  apply (mcp_stream_numbers_all_delivered 3 4 Sample.reliable); [lia|].
  intros k Hk. reflexivity.
Defined.

(** X2: in the request/response binding, when the delivery of turn [k]
    (from 0, a turn [count] allows) is the first one rejected,
    [stream_numbers] is rejected with that delivery's reason: it has handed
    over the notifications of 1, ..., [k + 1], paused [k] times, and
    neither sends the later notifications nor returns a result. *)
Theorem mcp_stream_numbers_first_rejection
  (count : number) (k fuel : nat) (extra : Extra) (reason : string) :
  (k < fuel)%nat →
  le (of_Z (1 + Z.of_nat k)) count = true →
  (∀ j : nat, (j < k)%nat →
     settles extra j (Mcp.notification (1 + Z.of_nat j)) = None) →
  settles extra k (Mcp.notification (1 + Z.of_nat k)) = Some reason →
  Mcp.stream_numbers fuel count extra start
  = ({| sent := Mcp.notification <$> seqZ 1 (Z.of_nat (S k));
        timers := replicate k 1000;
        console := [] |},
     Rejected reason).
Proof.
  intros Hfuel Hle Hok Hfail. unfold Mcp.stream_numbers.
  by rewrite (mcp_stream_numbers_from_rejected extra count reason k).
Qed.

Lemma mcp_stream_numbers_first_rejection_witness :
  Mcp.stream_numbers 2 (of_Z 3) Sample.second_fails start
  = ({| sent := Mcp.notification <$> seqZ 1 (Z.of_nat 2);
        timers := replicate 1 1000;
        console := [] |},
     Rejected "Not connected").
Proof.
  apply (mcp_stream_numbers_first_rejection (of_Z 3) 1 2 Sample.second_fails "Not connected");
    [lia | reflexivity | | reflexivity].
  intros j Hj. destruct j; [reflexivity | lia].
Defined.

Lemma sse_stream_numbers_from_outcomes (sessionId : string) (count : number)
  (extra1 extra2 : Extra) (fuel : nat) :
  ∀ (i : Z) (accumulator : string) (w1 w2 : World),
    sent w1 = sent w2 → timers w1 = timers w2 →
    snd (Sse.stream_numbers_from fuel sessionId count extra1 i accumulator w1)
    = snd (Sse.stream_numbers_from fuel sessionId count extra2 i accumulator w2) ∧
    sent (fst (Sse.stream_numbers_from fuel sessionId count extra1 i accumulator w1))
    = sent (fst (Sse.stream_numbers_from fuel sessionId count extra2 i accumulator w2)) ∧
    timers (fst (Sse.stream_numbers_from fuel sessionId count extra1 i accumulator w1))
    = timers (fst (Sse.stream_numbers_from fuel sessionId count extra2 i accumulator w2)).
Proof.
  induction fuel as [|fuel IH]; intros i accumulator w1 w2 Hsent Htimers;
    cbn [Sse.stream_numbers_from].
  - done.
  - destruct (le (of_Z i) count); [|done].
    cbv [bind logger sendNotification sleep catch ret]. cbn [sent timers console].
    destruct (settles extra1 _ _), (settles extra2 _ _); cbn [sent timers console];
      apply IH; cbn [sent timers]; congruence.
Qed.

(** X3: in the push binding, what becomes of the deliveries has no
    influence on [stream_numbers]: for every [count], on any two
    transports it hands over the same notifications, pauses alike and
    stands alike (same result if it has returned). Only the log differs. *)
Theorem sse_stream_numbers_ignores_outcomes
  (fuel : nat) (sessionId : string) (count : number) (extra1 extra2 : Extra) :
  snd (Sse.stream_numbers fuel sessionId count extra1 start)
  = snd (Sse.stream_numbers fuel sessionId count extra2 start) ∧
  sent (fst (Sse.stream_numbers fuel sessionId count extra1 start))
  = sent (fst (Sse.stream_numbers fuel sessionId count extra2 start)) ∧
  timers (fst (Sse.stream_numbers fuel sessionId count extra1 start))
  = timers (fst (Sse.stream_numbers fuel sessionId count extra2 start)).
Proof.
  unfold Sse.stream_numbers. cbv [bind logger]. cbn [sent timers console start].
  by apply sse_stream_numbers_from_outcomes.
Qed.




Lemma mcp_stream_numbers_from_floor (extra : Extra) (q : Q) (fuel : nat) :
  ∀ (i : Z) (w : World),
    Mcp.stream_numbers_from fuel (Finite q) extra i w
    = Mcp.stream_numbers_from fuel (of_Z (Qfloor q)) extra i w.
Proof.
  induction fuel as [|fuel IH]; intros i w; cbn [Mcp.stream_numbers_from]; [done|].
  rewrite le_floor. destruct (le _ _); [|done].
  cbv [bind sendNotification await sleep ret throw]. cbn [sent timers console].
  destruct (settles extra _ _); [done|apply IH].
Qed.

Lemma sse_stream_numbers_from_floor (sessionId : string) (extra : Extra) (q : Q) (fuel : nat) :
  ∀ (i : Z) (accumulator : string) (w : World),
    Sse.stream_numbers_from fuel sessionId (Finite q) extra i accumulator w
    = Sse.stream_numbers_from fuel sessionId (of_Z (Qfloor q)) extra i accumulator w.
Proof.
  induction fuel as [|fuel IH]; intros i accumulator w; cbn [Sse.stream_numbers_from]; [done|].
  rewrite le_floor. destruct (le _ _); [|done].
  cbv [bind logger sendNotification sleep catch ret]. cbn [sent timers console].
  destruct (settles extra _ _); apply IH.
Qed.

(** X5: a fractional [count] acts as its floor. In the request/response
    binding [stream_numbers] does on [count] exactly what it does on
    [Math.floor(count)]; in the push binding so does its loop (the first
    log line alone shows the [count] given). *)
Theorem stream_numbers_fractional_count
  (q : Q) (fuel : nat) (sessionId : string) (extra : Extra)
  (i : Z) (accumulator : string) (w : World) :
  Mcp.stream_numbers fuel (Finite q) extra w
  = Mcp.stream_numbers fuel (of_Z (Qfloor q)) extra w ∧
  Sse.stream_numbers_from fuel sessionId (Finite q) extra i accumulator w
  = Sse.stream_numbers_from fuel sessionId (of_Z (Qfloor q)) extra i accumulator w.
Proof.
  split; [apply mcp_stream_numbers_from_floor | apply sse_stream_numbers_from_floor].
Qed.

Lemma sse_stream_numbers_from_infinity (sessionId : string) (extra : Extra) (fuel : nat) :
  ∀ (i : Z) (accumulator : string) (w : World),
    snd (Sse.stream_numbers_from fuel sessionId Infinity extra i accumulator w) = Pending ∧
    length (sent (fst (Sse.stream_numbers_from fuel sessionId Infinity extra i accumulator w)))
    = (length (sent w) + fuel)%nat.
Proof.
  induction fuel as [|fuel IH]; intros i accumulator w; cbn [Sse.stream_numbers_from].
  - simpl. split; [done|lia].
  - change (le (of_Z i) Infinity) with true. cbv iota.
    cbv [bind logger sendNotification sleep catch ret]. cbn [sent timers console].
    destruct (settles extra _ _); cbn [sent timers console];
      match goal with
      | |- context [Sse.stream_numbers_from fuel _ _ _ ?j ?a ?w0] =>
          destruct (IH j a w0) as [Hpending Hlength]
      end;
      (split; [done|]); rewrite Hlength; cbn [sent]; rewrite length_app; simpl; lia.
Qed.

Lemma mcp_stream_numbers_from_infinity (extra : Extra) (fuel : nat) :
  ∀ (i : Z) (w : World) (result : Data),
    snd (Mcp.stream_numbers_from fuel Infinity extra i w) ≠ Fulfilled result.
Proof.
  induction fuel as [|fuel IH]; intros i w result; cbn [Mcp.stream_numbers_from].
  - done.
  - change (le (of_Z i) Infinity) with true. cbv iota.
    cbv [bind sendNotification await sleep ret throw]. cbn [sent timers console].
    destruct (settles extra _ _); cbn [sent timers console]; [done|apply IH].
Qed.

(** X6: with [count = Infinity] [stream_numbers] never returns. In the
    push binding it is still running after any number of turns, having
    sent one notification per turn; in the request/response binding it is
    never fulfilled, whatever the transport does. *)
Theorem stream_numbers_infinity_never_returns
  (fuel : nat) (sessionId : string) (extra : Extra) :
  snd (Sse.stream_numbers fuel sessionId Infinity extra start) = Pending ∧
  length (sent (fst (Sse.stream_numbers fuel sessionId Infinity extra start))) = fuel ∧
  ∀ result : Data,
    snd (Mcp.stream_numbers fuel Infinity extra start) ≠ Fulfilled result.
Proof.
  unfold Sse.stream_numbers, Mcp.stream_numbers.
  cbv [bind logger]. cbn [sent timers console start].
  match goal with
  | |- context [Sse.stream_numbers_from _ _ _ _ ?i ?a ?w0] =>
      destruct (sse_stream_numbers_from_infinity sessionId extra fuel i a w0)
        as [Hpending Hlength]
  end.
  split; [done|]. split; [by rewrite Hlength|].
  apply mcp_stream_numbers_from_infinity.
Qed.

End Streams.

(** ** Sessions of the request/response binding *)

Section McpSessions.
Import Js.

Variable isInitializeRequest : Data → bool.

#[local] Abbreviation post_mcp := (Mcp.post_mcp isInitializeRequest).
#[local] Abbreviation step := (Mcp.step isInitializeRequest).
#[local] Abbreviation run := (Mcp.run isInitializeRequest).

Lemma inherited_truthy (id : string) :
  id ∈ object_prototype_keys → truthy_string id = true.
Proof.
  intros Hin. unfold object_prototype_keys in Hin.
  repeat (apply elem_of_cons in Hin as [->|Hin]; [reflexivity|]).
  by apply elem_of_nil in Hin.
Qed.

(** The keys of the table are ids the SDK generated. *)
Lemma keys_generated_step (s s' : Mcp.State) (e : Mcp.Event) :
  (∀ id t, Mcp.transports s !! id = Some t → is_uuid id = true) →
  step s e = Some s' →
  ∀ id t, Mcp.transports s' !! id = Some t → is_uuid id = true.
Proof.
  intros Hkeys Hstep id t Hlookup.
  destruct e as [header body | header | t0 id0 | t0]; simpl in Hstep.
  - injection Hstep as <-. rewrite post_mcp_transports in Hlookup. eauto.
  - injection Hstep as <-. rewrite handleSessionRequest_state in Hlookup. eauto.
  - destruct (Mcp.heap s !! t0); [|done].
    destruct (is_uuid id0) eqn:Huuid; [|done]. injection Hstep as <-.
    simpl in Hlookup. unfold set in Hlookup.
    destruct (decide (id0 = id)) as [<-|Hne]; [done|].
    rewrite lookup_insert_ne in Hlookup by done. eauto.
  - destruct (Mcp.heap s !! t0); [|done]. injection Hstep as <-.
    apply onclose_transports in Hlookup. eauto.
Qed.

Lemma keys_generated_run (events : list Mcp.Event) :
  ∀ s s' : Mcp.State,
    (∀ id t, Mcp.transports s !! id = Some t → is_uuid id = true) →
    run s events = Some s' →
    ∀ id t, Mcp.transports s' !! id = Some t → is_uuid id = true.
Proof.
  induction events as [|e events IH]; intros s s' Hkeys Hrun; simpl in Hrun.
  - by injection Hrun as <-.
  - destruct (step s e) as [s1|] eqn:Hstep; [|done].
    eapply (IH s1); [|exact Hrun]. by eapply keys_generated_step.
Qed.

Lemma keys_generated_initial (events : list Mcp.Event) (s : Mcp.State) :
  run Mcp.initial events = Some s →
  ∀ id t, Mcp.transports s !! id = Some t → is_uuid id = true.
Proof.
  apply keys_generated_run. intros id t H. simpl in H. by rewrite lookup_empty in H.
Qed.

(** X7: along every run of the server from its start, a session in the
    table is served: its id is a generated one, a POST carrying it goes to
    its transport with the body, whatever the body (an initialization
    request included), a GET or DELETE carrying it goes to its transport
    without body, and none of them changes the state. *)
Theorem mcp_registered_session_is_served
  (events : list Mcp.Event) (s : Mcp.State) (id : string) (t : Mcp.handle) (body : Data) :
  run Mcp.initial events = Some s →
  Mcp.transports s !! id = Some t →
  is_uuid id = true ∧
  post_mcp (Some id) body s = (s, [Mcp.HandleRequest t (Some body)]) ∧
  Mcp.handleSessionRequest (Some id) s = (s, [Mcp.HandleRequest t None]).
Proof.
  intros Hrun Ht.
  pose proof (keys_generated_initial events s Hrun id t Ht) as Huuid.
  split; [done|]. split.
  - apply post_mcp_known; [by apply uuid_truthy|done].
  - unfold Mcp.handleSessionRequest.
    by rewrite and_get_truthy, (get_own _ _ _ Ht) by by apply uuid_truthy.
Qed.

(** X8: along every run of the server from its start, the requests on
    which a handler of [/mcp] throws are exactly those whose session id
    header names a member of [Object.prototype], for POST whatever the
    body, and for GET and DELETE. *)
Theorem mcp_throws_exactly_on_inherited_keys
  (events : list Mcp.Event) (s : Mcp.State) (header : option string) (body : Data) :
  run Mcp.initial events = Some s →
  ((∃ callee, Mcp.TypeError callee ∈ snd (post_mcp header body s))
   ↔ ∃ id, header = Some id ∧ id ∈ object_prototype_keys) ∧
  ((∃ callee, Mcp.TypeError callee ∈ snd (Mcp.handleSessionRequest header s))
   ↔ ∃ id, header = Some id ∧ id ∈ object_prototype_keys).
Proof.
  intros Hrun.
  pose proof (keys_generated_initial events s Hrun) as Hkeys.
  assert (Hget : ∀ id, id ∈ object_prototype_keys →
                 and_get (Some id) (Mcp.transports s) = Some (Inherited id)).
  { intros id Hin. rewrite and_get_truthy by by apply inherited_truthy.
    apply get_inherited; [|done].
    destruct (Mcp.transports s !! id) as [t|] eqn:Ht; [|done].
    apply Hkeys in Ht. by apply uuid_not_inherited in Ht. }
  assert (Hinv : ∀ name, and_get header (Mcp.transports s) = Some (Inherited name) →
                 ∃ id, header = Some id ∧ id ∈ object_prototype_keys).
  { intros name Hname. destruct header as [id|]; [|done]. simpl in Hname.
    destruct (truthy_string id); [|done].
    exists id. split; [done|]. by eapply get_inherited_inv. }
  split; split.
  - intros [callee Hin]. unfold Mcp.post_mcp in Hin.
    destruct (and_get header (Mcp.transports s)) as [[t|name]|] eqn:Hand;
      [| by eapply Hinv |destruct (negb _ && _)]; simpl in Hin;
      repeat (apply elem_of_cons in Hin as [Hin|Hin]; [discriminate Hin|]);
      by apply elem_of_nil in Hin.
  - intros (id & -> & Hin). exists (id ++ ".handleRequest")%string.
    unfold Mcp.post_mcp. rewrite (Hget id Hin). simpl. by left.
  - intros [callee Hin]. unfold Mcp.handleSessionRequest in Hin.
    destruct (and_get header (Mcp.transports s)) as [[t|name]|] eqn:Hand;
      [| by eapply Hinv |]; simpl in Hin;
      repeat (apply elem_of_cons in Hin as [Hin|Hin]; [discriminate Hin|]);
      by apply elem_of_nil in Hin.
  - intros (id & -> & Hin). exists (id ++ ".handleRequest")%string.
    unfold Mcp.handleSessionRequest. rewrite (Hget id Hin). simpl. by left.
Qed.

(** X9: the life of a session. When the SDK completes the initialization
    of an existing transport under a generated id the table does not hold
    yet, requests carrying that id go to that transport; when the
    transport then closes, [onclose] puts the table back as it was before
    the initialization, and the transport keeps its [sessionId]. *)
Theorem mcp_initialize_then_close
  (s : Mcp.State) (t : Mcp.handle) (id : string) (body : Data) :
  (t < length (Mcp.heap s))%nat → is_uuid id = true →
  Mcp.transports s !! id = None →
  ∃ s1 : Mcp.State,
    step s (Mcp.Initialized t id) = Some s1 ∧
    post_mcp (Some id) body s1 = (s1, [Mcp.HandleRequest t (Some body)]) ∧
    Mcp.handleSessionRequest (Some id) s1 = (s1, [Mcp.HandleRequest t None]) ∧
    Mcp.transports (Mcp.onclose t s1) = Mcp.transports s ∧
    Mcp.heap (Mcp.onclose t s1) = <[t := {| Mcp.sessionId := Some id |}]> (Mcp.heap s).
Proof.
  intros Hlt Huuid Hfresh.
  simpl. destruct (Mcp.heap s !! t) as [tr|] eqn:Hheap;
    [|apply lookup_ge_None in Hheap; lia].
  rewrite Huuid.
  eexists. split; [reflexivity|].
  set (s1 := Mcp.onsessioninitialized t id _).
  assert (Ht : Mcp.transports s1 !! id = Some t) by apply lookup_insert_eq.
  assert (Hheap1 : Mcp.sessionId <$> Mcp.heap s1 !! t = Some (Some id)).
  { subst s1. simpl. by rewrite list_lookup_insert_eq. }
  split; [apply post_mcp_known; [by apply uuid_truthy|done]|].
  split.
  { unfold Mcp.handleSessionRequest.
    by rewrite and_get_truthy, (get_own _ _ _ Ht) by by apply uuid_truthy. }
  rewrite (onclose_removes id t s1 Huuid Hheap1). simpl. split; [|done].
  unfold delete_, set. rewrite delete_insert_eq. by apply delete_id.
Qed.

(** X10: the [onclose] callback of a transport removes at most the entry
    of that transport's own [sessionId]. Every other id keeps its entry,
    the transports themselves are untouched, and for a transport that was
    never initialized ([sessionId] still [undefined]) the callback changes
    nothing at all. *)
Theorem mcp_onclose_only_own_id (s : Mcp.State) (t : Mcp.handle) :
  (∀ id : string,
     Mcp.sessionId <$> Mcp.heap s !! t ≠ Some (Some id) →
     Mcp.transports (Mcp.onclose t s) !! id = Mcp.transports s !! id) ∧
  (Mcp.sessionId <$> Mcp.heap s !! t = Some None → Mcp.onclose t s = s) ∧
  Mcp.heap (Mcp.onclose t s) = Mcp.heap s.
Proof.
  split; [|split; [|apply onclose_heap]].
  - intros id Hother. unfold Mcp.onclose.
    destruct (Mcp.heap s !! t) as [[[id0|]]|]; simpl in *; try done.
    destruct (truthy_string id0); [|done]. simpl. unfold delete_.
    apply lookup_delete_ne. congruence.
  - unfold Mcp.onclose. by destruct (Mcp.heap s !! t) as [[[id0|]]|].
Qed.

(** X11: an empty [mcp-session-id] header counts as a missing one. A POST
    with it is handled exactly as a POST without header, so one whose body
    is an initialization request creates a transport; a GET or DELETE with
    it gets the plain-text 400. *)
Theorem mcp_empty_header_as_missing (body : Data) (s : Mcp.State) :
  isInitializeRequest body = true →
  post_mcp (Some "") body s = post_mcp None body s ∧
  post_mcp (Some "") body s
  = ({| Mcp.transports := Mcp.transports s;
        Mcp.heap := Mcp.heap s ++ [{| Mcp.sessionId := None |}] |},
     [Mcp.Connect (length (Mcp.heap s));
      Mcp.HandleRequest (length (Mcp.heap s)) (Some body)]) ∧
  Mcp.handleSessionRequest (Some "") s
  = (s, [Mcp.SendText 400 "Invalid or missing session ID"]).
Proof.
  intros Hinit. split; [done|]. split; [|done].
  by apply post_mcp_initialize.
Qed.

End McpSessions.

Lemma mcp_registered_session_is_served_witness :
  let events := [Mcp.Post None Sample.initialize_body;
                 Mcp.Initialized 0%nat Sample.session] in
  let s := {| Mcp.transports := {[ Sample.session := 0%nat ]};
              Mcp.heap := [{| Mcp.sessionId := Some Sample.session |}] |} in
  Js.is_uuid Sample.session = true ∧
  Mcp.post_mcp Sample.has_initialize_method (Some Sample.session) Sample.initialize_body s
  = (s, [Mcp.HandleRequest 0%nat (Some Sample.initialize_body)]) ∧
  Mcp.handleSessionRequest (Some Sample.session) s = (s, [Mcp.HandleRequest 0%nat None]).
Proof.
  intros events s.
  apply (mcp_registered_session_is_served Sample.has_initialize_method events s
           Sample.session 0%nat Sample.initialize_body);
    vm_compute; reflexivity.
Defined.

Lemma mcp_throws_exactly_on_inherited_keys_witness :
  let s := {| Mcp.transports := {[ Sample.session := 0%nat ]};
              Mcp.heap := [{| Mcp.sessionId := Some Sample.session |}] |} in
  ((∃ callee, Mcp.TypeError callee
              ∈ snd (Mcp.post_mcp Sample.has_initialize_method (Some "toString")
                       Sample.initialize_body s))
   ↔ ∃ id, Some "toString"%string = Some id ∧ id ∈ Js.object_prototype_keys) ∧
  ((∃ callee, Mcp.TypeError callee ∈ snd (Mcp.handleSessionRequest (Some "toString") s))
   ↔ ∃ id, Some "toString"%string = Some id ∧ id ∈ Js.object_prototype_keys).
Proof.
  intros s.
  apply (mcp_throws_exactly_on_inherited_keys Sample.has_initialize_method
           [Mcp.Post None Sample.initialize_body; Mcp.Initialized 0%nat Sample.session]
           s (Some "toString"%string) Sample.initialize_body).
  vm_compute. reflexivity.
Defined.

Lemma mcp_initialize_then_close_witness :
  let s := {| Mcp.transports := ∅; Mcp.heap := [{| Mcp.sessionId := None |}] |} in
  ∃ s1 : Mcp.State,
    Mcp.step Sample.has_initialize_method s (Mcp.Initialized 0%nat Sample.session) = Some s1 ∧
    Mcp.post_mcp Sample.has_initialize_method (Some Sample.session) Sample.tools_list_body s1
    = (s1, [Mcp.HandleRequest 0%nat (Some Sample.tools_list_body)]) ∧
    Mcp.handleSessionRequest (Some Sample.session) s1 = (s1, [Mcp.HandleRequest 0%nat None]) ∧
    Mcp.transports (Mcp.onclose 0%nat s1) = Mcp.transports s ∧
    Mcp.heap (Mcp.onclose 0%nat s1)
    = <[0%nat := {| Mcp.sessionId := Some Sample.session |}]> (Mcp.heap s).
Proof.
  intros s.
  apply (mcp_initialize_then_close Sample.has_initialize_method s 0%nat Sample.session
           Sample.tools_list_body).
  - simpl. lia.
  - reflexivity.
  - reflexivity.
Defined.

Lemma mcp_empty_header_as_missing_witness :
  let body := Sample.initialize_body in
  let s := Mcp.initial in
  Mcp.post_mcp Sample.has_initialize_method (Some "") body s
  = Mcp.post_mcp Sample.has_initialize_method None body s ∧
  Mcp.post_mcp Sample.has_initialize_method (Some "") body s
  = ({| Mcp.transports := Mcp.transports s;
        Mcp.heap := Mcp.heap s ++ [{| Mcp.sessionId := None |}] |},
     [Mcp.Connect (length (Mcp.heap s));
      Mcp.HandleRequest (length (Mcp.heap s)) (Some body)]) ∧
  Mcp.handleSessionRequest (Some "") s
  = (s, [Mcp.SendText 400 "Invalid or missing session ID"]).
Proof.
  intros body s.
  apply (mcp_empty_header_as_missing Sample.has_initialize_method body s).
  reflexivity.
Defined.

(** ** Sessions of the push-stream binding *)

Section SseSessions.
Import Js.

(** X12: opening a stream makes its session addressable at once. After
    [app.get("/sse")] has run for a new transport with a generated id, a
    POST to [/sse] or [/messages] naming that id is handed to that
    transport, and requests naming anything else are answered as
    before. *)
Theorem sse_open_then_post (s : Sse.State) (id : string) (body : Data) :
  is_uuid id = true →
  let s1 := fst (Sse.get_sse id s) in
  Sse.post_sse (Some id) body s1
  = (s1, [Sse.Log (Console.IncomingLegacy (Some id));
          Sse.HandlePostMessage (Sse.created s) body]) ∧
  Sse.post_messages (Some id) body s1
  = (s1, [Sse.Log (Console.IncomingMessages (Some id));
          Sse.HandlePostMessage (Sse.created s) body]) ∧
  (∀ other : option string,
     other ≠ Some id →
     snd (Sse.post_sse other body s1) = snd (Sse.post_sse other body s) ∧
     snd (Sse.post_messages other body s1) = snd (Sse.post_messages other body s)).
Proof.
  intros Huuid s1.
  assert (Ht : Sse.transports s1 !! id = Some (Sse.created s : Sse.handle))
    by apply lookup_insert_eq.
  split; [|split].
  - unfold Sse.post_sse.
    by rewrite and_get_truthy, (get_own _ _ _ Ht) by by apply uuid_truthy.
  - unfold Sse.post_messages.
    by rewrite and_get_truthy, (get_own _ _ _ Ht) by by apply uuid_truthy.
  - intros other Hother.
    assert (Hsame : and_get other (Sse.transports s1) = and_get other (Sse.transports s)).
    { destruct other as [id'|]; [|done]. simpl.
      destruct (truthy_string id'); [|done].
      unfold get. subst s1. simpl. unfold set.
      rewrite lookup_insert_ne by congruence. done. }
    unfold Sse.post_sse, Sse.post_messages. rewrite Hsame.
    by destruct (and_get other (Sse.transports s)).
Qed.

(** X13: opening a stream under a generated id neither table holds and
    then closing its connection leaves both tables as they were before;
    the [close] listener closes the transport and the server created for
    the connection, in that order. *)
Theorem sse_open_then_close (s : Sse.State) (id : string) :
  is_uuid id = true →
  Sse.transports s !! id = None → Sse.servers s !! id = None →
  Sse.on_close id (Sse.created s) (fst (Sse.get_sse id s))
  = ({| Sse.transports := Sse.transports s;
        Sse.servers := Sse.servers s;
        Sse.created := S (S (Sse.created s)) |},
     [Sse.Log (Console.Disconnected id);
      Sse.TransportClose (Sse.created s);
      Sse.ServerClose (S (Sse.created s))]).
Proof.
  intros Huuid Ht Hs. unfold Sse.on_close, Sse.get_sse, set, delete_. simpl.
  rewrite (get_own _ _ (S (Sse.created s))) by apply lookup_insert_eq.
  rewrite !delete_insert_eq, !delete_id by done. done.
Qed.

Lemma in_step_boot : Sse.in_step Sse.boot.
Proof.
  split; [|split].
  - intros id t. simpl. rewrite lookup_empty. split; [done|].
    intros H. by apply elem_of_nil in H.
  - intros id. simpl. by rewrite !lookup_empty.
  - intros id t H. by apply elem_of_nil in H.
Qed.

Lemma in_step_step (p p' : Sse.Process) (e : Sse.Event) :
  Sse.in_step p → Sse.step p e = Some p' → Sse.in_step p'.
Proof.
  intros (Htable & Hservers & Hids) Hstep.
  destruct e as [id | id t | sessionId body | sessionId body]; simpl in Hstep.
  - destruct (is_uuid id) eqn:Huuid; [|done].
    destruct (bool_decide _) eqn:Hfresh; [|done].
    apply bool_decide_eq_true_1 in Hfresh.
    injection Hstep as <-. unfold Sse.in_step, set. simpl.
    assert (Hnone : Sse.transports (Sse.state p) !! id = None).
    { destruct (Sse.transports (Sse.state p) !! id) as [t|] eqn:Ht; [|done].
      apply Htable in Ht. destruct Hfresh. apply list_elem_of_fmap.
      by exists (id, t). }
    split; [|split].
    + intros id' t'. rewrite elem_of_cons.
      destruct (decide (id = id')) as [<-|Hne].
      * rewrite lookup_insert_eq. split.
        -- intros [= <-]. by left.
        -- intros [[= ->]|Hin]; [done|].
           apply Htable in Hin. congruence.
      * rewrite lookup_insert_ne by done. rewrite Htable. split; [by right|].
        intros [[= -> ->]|Hin]; done.
    + intros id'. destruct (decide (id = id')) as [<-|Hne].
      * by rewrite !lookup_insert_eq.
      * by rewrite !lookup_insert_ne.
    + intros id' t'. rewrite elem_of_cons. intros [[= -> ->]|Hin].
      * split; [done|lia].
      * destruct (Hids id' t' Hin). split; [done|lia].
  - destruct (bool_decide _) eqn:Hin; [|done].
    apply bool_decide_eq_true_1 in Hin.
    injection Hstep as <-.
    destruct (Hids id t Hin) as [Huuid Hlt].
    pose proof (proj2 (Htable id t) Hin) as Ht.
    pose proof (Hservers id) as Hs. unfold Sse.handle in *. rewrite Ht in Hs. simpl in Hs.
    unfold Sse.in_step, Sse.on_close, delete_. unfold Sse.handle in *.
    rewrite (get_own _ _ _ Hs). simpl.
    split; [|split].
    + intros id' t'. rewrite list_elem_of_filter.
      destruct (decide (id = id')) as [<-|Hne].
      * rewrite lookup_delete_eq. split; [done|].
        intros [Hneq Hin']. apply Htable in Hin'.
        destruct Hneq. congruence.
      * rewrite lookup_delete_ne by done. rewrite Htable.
        split; [|by intros [_ ?]]. intros Hin'. split; [|done]. congruence.
    + intros id'. destruct (decide (id = id')) as [<-|Hne].
      * by rewrite !lookup_delete_eq.
      * by rewrite !lookup_delete_ne.
    + intros id' t'. rewrite list_elem_of_filter. intros [_ Hin'].
      by apply Hids.
  - injection Hstep as <-. unfold Sse.in_step. simpl.
    destruct (post_sse_post_messages_alike sessionId body (Sse.state p)) as (_ & -> & _).
    done.
  - injection Hstep as <-. unfold Sse.in_step. simpl.
    destruct (post_sse_post_messages_alike sessionId body (Sse.state p)) as (<- & -> & _).
    done.
Qed.

Lemma in_step_run (events : list Sse.Event) :
  ∀ p p' : Sse.Process,
    Sse.in_step p → Sse.run p events = Some p' → Sse.in_step p'.
Proof.
  induction events as [|e events IH]; intros p p' Hinv Hrun; simpl in Hrun.
  - by injection Hrun as <-.
  - destruct (Sse.step p e) as [p1|] eqn:Hstep; [|done].
    eapply IH; [|exact Hrun]. by eapply in_step_step.
Qed.

Lemma distinct_transports_step (p p' : Sse.Process) (e : Sse.Event) :
  Sse.in_step p →
  (∀ (id1 id2 : string) (t : Sse.handle),
     (id1, t) ∈ Sse.listeners p → (id2, t) ∈ Sse.listeners p → id1 = id2) →
  Sse.step p e = Some p' →
  ∀ (id1 id2 : string) (t : Sse.handle),
    (id1, t) ∈ Sse.listeners p' → (id2, t) ∈ Sse.listeners p' → id1 = id2.
Proof.
  intros (_ & _ & Hids) Hinj Hstep id1 id2 t.
  destruct e as [id | id t0 | sessionId body | sessionId body]; simpl in Hstep.
  - destruct (is_uuid id && bool_decide _); [|done]. injection Hstep as <-. simpl.
    rewrite !elem_of_cons.
    intros [H1|H1] [H2|H2].
    + congruence.
    + injection H1 as -> ->. destruct (Hids _ _ H2). lia.
    + injection H2 as -> ->. destruct (Hids _ _ H1). lia.
    + by eapply Hinj.
  - destruct (bool_decide _); [|done]. injection Hstep as <-. simpl.
    rewrite !list_elem_of_filter. intros [_ H1] [_ H2]. by eapply Hinj.
  - injection Hstep as <-. apply Hinj.
  - injection Hstep as <-. apply Hinj.
Qed.

Lemma distinct_transports_run (events : list Sse.Event) :
  ∀ p p' : Sse.Process,
    Sse.in_step p →
    (∀ (id1 id2 : string) (t : Sse.handle),
       (id1, t) ∈ Sse.listeners p → (id2, t) ∈ Sse.listeners p → id1 = id2) →
    Sse.run p events = Some p' →
    ∀ (id1 id2 : string) (t : Sse.handle),
      (id1, t) ∈ Sse.listeners p' → (id2, t) ∈ Sse.listeners p' → id1 = id2.
Proof.
  induction events as [|e events IH]; intros p p' Hinv Hinj Hrun; simpl in Hrun.
  - by injection Hrun as <-.
  - destruct (Sse.step p e) as [p1|] eqn:Hstep; [|done].
    eapply (IH p1); [by eapply in_step_step| |exact Hrun].
    by eapply distinct_transports_step.
Qed.

(** X14: along every run of the push server from its start, [transports]
    holds exactly the sessions whose connection is open, each under its
    own id with its own transport; [servers] holds, under the same ids,
    the server created right after each of these transports; and no two
    ids share a transport. *)
Theorem sse_tables_follow_connections (events : list Sse.Event) (p : Sse.Process) :
  Sse.run Sse.boot events = Some p →
  (∀ (id : string) (t : Sse.handle),
     Sse.transports (Sse.state p) !! id = Some t ↔ (id, t) ∈ Sse.listeners p) ∧
  (∀ id : string,
     Sse.servers (Sse.state p) !! id = S <$> Sse.transports (Sse.state p) !! id) ∧
  (∀ (id1 id2 : string) (t : Sse.handle),
     Sse.transports (Sse.state p) !! id1 = Some t →
     Sse.transports (Sse.state p) !! id2 = Some t → id1 = id2).
Proof.
  intros Hrun.
  destruct (in_step_run events Sse.boot p in_step_boot Hrun) as (Htable & Hservers & Hids).
  split; [done|]. split; [done|].
  intros id1 id2 t H1 H2. apply Htable in H1, H2.
  eapply (distinct_transports_run events Sse.boot p in_step_boot); [|done|exact H1|exact H2].
  intros ? ? ? H. by apply elem_of_nil in H.
Qed.

(** X15: along every run of the push server from its start, a message
    posted to [/sse] or to [/messages] for a session whose connection is
    open is handed to that session's transport, with its body, and the
    state is unchanged. *)
Theorem sse_open_session_receives_messages
  (events : list Sse.Event) (p : Sse.Process) (id : string) (t : Sse.handle) (body : Data) :
  Sse.run Sse.boot events = Some p →
  (id, t) ∈ Sse.listeners p →
  Sse.post_sse (Some id) body (Sse.state p)
  = (Sse.state p, [Sse.Log (Console.IncomingLegacy (Some id));
                   Sse.HandlePostMessage t body]) ∧
  Sse.post_messages (Some id) body (Sse.state p)
  = (Sse.state p, [Sse.Log (Console.IncomingMessages (Some id));
                   Sse.HandlePostMessage t body]).
Proof.
  intros Hrun Hopen.
  destruct (in_step_run events Sse.boot p in_step_boot Hrun) as (Htable & _ & Hids).
  apply Htable in Hopen as Ht. destruct (Hids id t Hopen) as [Huuid _].
  unfold Sse.post_sse, Sse.post_messages.
  by rewrite and_get_truthy, (get_own _ _ _ Ht) by by apply uuid_truthy.
Qed.

(** X16: along every run of the push server from its start, the messages
    on which [app.post("/sse")] or [app.post("/messages")] throws are
    exactly those whose [sessionId] parameter names a member of
    [Object.prototype]. *)
Theorem sse_throws_exactly_on_inherited_keys
  (events : list Sse.Event) (p : Sse.Process) (sessionId : option string) (body : Data) :
  Sse.run Sse.boot events = Some p →
  ((∃ callee, Sse.TypeError callee ∈ snd (Sse.post_sse sessionId body (Sse.state p)))
   ↔ ∃ id, sessionId = Some id ∧ id ∈ object_prototype_keys) ∧
  ((∃ callee, Sse.TypeError callee ∈ snd (Sse.post_messages sessionId body (Sse.state p)))
   ↔ ∃ id, sessionId = Some id ∧ id ∈ object_prototype_keys).
Proof.
  intros Hrun.
  destruct (in_step_run events Sse.boot p in_step_boot Hrun) as (Htable & _ & Hids).
  set (table := Sse.transports (Sse.state p)).
  assert (Hget : ∀ id, id ∈ object_prototype_keys →
                 and_get (Some id) table = Some (Inherited id)).
  { intros id Hin. rewrite and_get_truthy by by apply inherited_truthy.
    apply get_inherited; [|done].
    destruct (table !! id) as [t|] eqn:Ht; [|done].
    apply Htable in Ht. destruct (Hids id t Ht) as [Huuid _].
    by apply uuid_not_inherited in Huuid. }
  assert (Hinv : ∀ name, and_get sessionId table = Some (Inherited name) →
                 ∃ id, sessionId = Some id ∧ id ∈ object_prototype_keys).
  { intros name Hname. destruct sessionId as [id|]; [|done]. simpl in Hname.
    destruct (truthy_string id); [|done].
    exists id. split; [done|]. by eapply get_inherited_inv. }
  split; split.
  - intros [callee Hin]. unfold Sse.post_sse in Hin. fold table in Hin.
    destruct (and_get sessionId table) as [[t|name]|] eqn:Hand;
      [| by eapply Hinv |]; simpl in Hin;
      repeat (apply elem_of_cons in Hin as [Hin|Hin]; [discriminate Hin|]);
      by apply elem_of_nil in Hin.
  - intros (id & -> & Hin). exists (id ++ ".handlePostMessage")%string.
    unfold Sse.post_sse. fold table. rewrite (Hget id Hin). simpl. right. by left.
  - intros [callee Hin]. unfold Sse.post_messages in Hin. fold table in Hin.
    destruct (and_get sessionId table) as [[t|name]|] eqn:Hand;
      [| by eapply Hinv |]; simpl in Hin;
      repeat (apply elem_of_cons in Hin as [Hin|Hin]; [discriminate Hin|]);
      by apply elem_of_nil in Hin.
  - intros (id & -> & Hin). exists (id ++ ".handlePostMessage")%string.
    unfold Sse.post_messages. fold table. rewrite (Hget id Hin). simpl. right. by left.
Qed.

End SseSessions.

Lemma sse_open_then_post_witness :
  let s := Sse.initial in
  let id := Sample.session in
  let body := Sample.tools_list_body in
  let s1 := fst (Sse.get_sse id s) in
  Sse.post_sse (Some id) body s1
  = (s1, [Sse.Log (Console.IncomingLegacy (Some id));
          Sse.HandlePostMessage (Sse.created s) body]) ∧
  Sse.post_messages (Some id) body s1
  = (s1, [Sse.Log (Console.IncomingMessages (Some id));
          Sse.HandlePostMessage (Sse.created s) body]) ∧
  (∀ other : option string,
     other ≠ Some id →
     snd (Sse.post_sse other body s1) = snd (Sse.post_sse other body s) ∧
     snd (Sse.post_messages other body s1) = snd (Sse.post_messages other body s)).
Proof.
  intros s id body.
  apply (sse_open_then_post s id body). reflexivity.
Defined.

Lemma sse_open_then_close_witness :
  Sse.on_close Sample.session (Sse.created Sse.initial)
    (fst (Sse.get_sse Sample.session Sse.initial))
  = ({| Sse.transports := Sse.transports Sse.initial;
        Sse.servers := Sse.servers Sse.initial;
        Sse.created := S (S (Sse.created Sse.initial)) |},
     [Sse.Log (Console.Disconnected Sample.session);
      Sse.TransportClose (Sse.created Sse.initial);
      Sse.ServerClose (S (Sse.created Sse.initial))]).
Proof.
  apply (sse_open_then_close Sse.initial Sample.session); reflexivity.
Defined.

Lemma sse_tables_follow_connections_witness :
  let p := {| Sse.state := fst (Sse.get_sse Sample.session Sse.initial);
              Sse.listeners := [(Sample.session, 0%nat)] |} in
  (∀ (id : string) (t : Sse.handle),
     Sse.transports (Sse.state p) !! id = Some t ↔ (id, t) ∈ Sse.listeners p) ∧
  (∀ id : string,
     Sse.servers (Sse.state p) !! id = S <$> Sse.transports (Sse.state p) !! id) ∧
  (∀ (id1 id2 : string) (t : Sse.handle),
     Sse.transports (Sse.state p) !! id1 = Some t →
     Sse.transports (Sse.state p) !! id2 = Some t → id1 = id2).
Proof.
  intros p.
  apply (sse_tables_follow_connections
           [Sse.Opened Sample.session;
            Sse.PostedMessages (Some Sample.session) Sample.tools_list_body] p).
  vm_compute. reflexivity.
Defined.

Lemma sse_open_session_receives_messages_witness :
  let p := {| Sse.state := fst (Sse.get_sse Sample.session Sse.initial);
              Sse.listeners := [(Sample.session, 0%nat)] |} in
  Sse.post_sse (Some Sample.session) Sample.tools_list_body (Sse.state p)
  = (Sse.state p, [Sse.Log (Console.IncomingLegacy (Some Sample.session));
                   Sse.HandlePostMessage 0%nat Sample.tools_list_body]) ∧
  Sse.post_messages (Some Sample.session) Sample.tools_list_body (Sse.state p)
  = (Sse.state p, [Sse.Log (Console.IncomingMessages (Some Sample.session));
                   Sse.HandlePostMessage 0%nat Sample.tools_list_body]).
Proof.
  intros p.
  apply (sse_open_session_receives_messages [Sse.Opened Sample.session] p
           Sample.session 0%nat Sample.tools_list_body).
  - vm_compute. reflexivity.
  - vm_compute. left.
Defined.

Lemma sse_throws_exactly_on_inherited_keys_witness :
  let p := {| Sse.state := fst (Sse.get_sse Sample.session Sse.initial);
              Sse.listeners := [(Sample.session, 0%nat)] |} in
  let body := Sample.tools_list_body in
  ((∃ callee, Sse.TypeError callee
              ∈ snd (Sse.post_sse (Some "valueOf") body (Sse.state p)))
   ↔ ∃ id, Some "valueOf"%string = Some id ∧ id ∈ Js.object_prototype_keys) ∧
  ((∃ callee, Sse.TypeError callee
              ∈ snd (Sse.post_messages (Some "valueOf") body (Sse.state p)))
   ↔ ∃ id, Some "valueOf"%string = Some id ∧ id ∈ Js.object_prototype_keys).
Proof.
  intros p body.
  apply (sse_throws_exactly_on_inherited_keys [Sse.Opened Sample.session] p
           (Some "valueOf"%string) body).
  vm_compute. reflexivity.
Defined.
